(** * Trachemys habitat partitioning pipeline: model and verified properties

    A shallow embedding of the three stages of the pipeline
    (generate_data.py, analyze_habitat.py, visualize_results.py).

    Modelling conventions.
    - A pandas DataFrame is a list of rows (records), in row order.  The
      Dataset of the analyzer and of the renderer is read from a file with
      the header of the schema, so it has all its columns also when it has
      no row.  A frame built from an empty list of dicts,
      [pd.DataFrame([])], has no columns: selecting one raises KeyError.
    - Python ints are [Z]; [//] is [Z.div] (both round towards minus
      infinity).
    - A finite float64 is an exact rational, so floats are idealised as [Q];
      the one non-finite value the pipeline can report, NaN, is explicit in
      [fval].  Rounding is not modelled, and the statements below keep
      clear of identities that hold in exact arithmetic only (such as a
      zero variance of equal values).
    - The NumPy global generator is an explicit state threaded through the
      draws, behind the interface [RandomSource].
    - A raised exception is [None] / [inl]. *)

From Stdlib Require Import ZArith QArith Qminmax Qabs List String Bool Lia Lqa
  FinFun.
From Stdlib Require Import Permutation.
Import ListNotations.

Local Open Scope string_scope.
Local Open Scope list_scope.
Local Open Scope Q_scope.

(** ** Data model *)

(** One row of the DataFrame built by [generate_habitat_data] and read back
    by the analyzer and the renderer. *)
Record Observation : Type := mkObservation {
  observation_id : Z;
  water_body_type : string;
  salinity_ppt : Q;
  pH : Q;
  temperature_C : Q;
  dissolved_oxygen_mg_L : Q;
  RGS_present : Z;
  RES_present : Z;
  PH_present : Z
}.

Definition Dataset : Type := list Observation.

(** The species codes, [self.species = ['RGS', 'RES', 'PH']]. *)
Inductive Species : Type := RGS | RES | PH.

Definition species : list Species := [RGS; RES; PH].

(** Column [f'{species}_present'] of a row. *)
Definition present (s : Species) (o : Observation) : Z :=
  match s with
  | RGS => RGS_present o
  | RES => RES_present o
  | PH => PH_present o
  end.

Definition Species_eqb (a b : Species) : bool :=
  match a, b with
  | RGS, RGS | RES, RES | PH, PH => true
  | _, _ => false
  end.

(** A float that may be NaN. *)
Inductive fval : Type :=
| NaN : fval
| Val : Q -> fval.

(** [x < y] on floats that are not NaN. *)
Definition Qltb (x y : Q) : bool := negb (Qle_bool y x).

(** ** The random source *)

(** The part of [np.random] the generator uses.  [rs_seed] is
    [np.random.seed], [rs_normal loc scale] one draw of [np.random.normal],
    [rs_random] one draw of [np.random.random]. *)
Record RandomSource : Type := mkRandomSource {
  rs_state : Type;
  rs_seed : Z -> rs_state;
  rs_normal : Q -> Q -> rs_state -> Q * rs_state;
  rs_random : rs_state -> Q * rs_state
}.

(** A small linear congruential source, used to run the model on concrete
    inputs.  The theorems quantify over every source. *)
Module LCG.

Definition modulus : Z := 2147483648.

Definition next (s : Z) : Z := ((1103515245 * s + 12345) mod modulus)%Z.

Definition uniform (s : Z) : Q * Z :=
  let s' := next s in (Qred (s' # 2147483648), s').

(** A crude bell: the centred sum of three uniforms, scaled.  With a large
    [scale] it leaves every clipping interval. *)
Definition normal (loc scale : Q) (s : Z) : Q * Z :=
  let '(u1, s1) := uniform s in
  let '(u2, s2) := uniform s1 in
  let '(u3, s3) := uniform s2 in
  (Qred (loc + scale * (2 * (u1 + u2 + u3) - 3)), s3).

Definition source : RandomSource :=
  mkRandomSource Z (fun seed => seed) normal uniform.

End LCG.

(** ** Stage 1: generate_data.py *)

Module Generator.

Section WithSource.

Variable R : RandomSource.

(** Computations that draw from the global generator. *)
Definition Rand (A : Type) : Type := rs_state R -> A * rs_state R.

Definition ret {A : Type} (a : A) : Rand A := fun g => (a, g).

Definition bind {A B : Type} (c : Rand A) (k : A -> Rand B) : Rand B :=
  fun g => let '(a, g') := c g in k a g'.

Notation "x <- c ;; k" := (bind c (fun x => k))
  (at level 61, c at next level, right associativity).

(** [np.random.seed(seed)]: replaces the global state. *)
Definition np_random_seed (seed : Z) : Rand unit :=
  fun _ => (tt, rs_seed R seed).

(** [np.random.normal(loc, scale, size)] for a non-negative [size]. *)
Fixpoint np_random_normal (loc scale : Q) (size : nat) : Rand (list Q) :=
  match size with
  | O => ret []
  | S k =>
      x <- rs_normal R loc scale ;;
      xs <- np_random_normal loc scale k ;;
      ret (x :: xs)
  end.

(** [np.clip(a, a_min, a_max)] on one element. *)
Definition clip (a a_min a_max : Q) : Q := Qmin (Qmax a a_min) a_max.

Definition np_clip (a : list Q) (a_min a_max : Q) : list Q :=
  map (fun x => clip x a_min a_max) a.

Definition water_types : list string :=
  ["Clear spring fed pond"; "vegetated pond"; "Oxbow analog"].

(** The three conditional expressions that give the presence
    probabilities. *)
Definition rgs_prob (water_type : string) : Q :=
  if String.eqb water_type "Clear spring fed pond" then 0.85
  else if String.eqb water_type "Oxbow analog" then 0.30 else 0.05.

Definition res_prob (water_type : string) : Q :=
  if String.eqb water_type "Oxbow analog" then 0.90
  else if String.eqb water_type "vegetated pond" then 0.25 else 0.02.

Definition ph_prob (water_type : string) : Q :=
  if String.eqb water_type "vegetated pond" then 0.85
  else if String.eqb water_type "Oxbow analog" then 0.50 else 0.45.

(** [1 if np.random.random() < p else 0] *)
Definition bernoulli (p : Q) : Rand Z :=
  u <- rs_random R ;;
  ret (if Qltb u p then 1%Z else 0%Z).

(** The four environmental arrays of one habitat, drawn in source order. *)
Definition draw_environment (water_type : string) (n : nat)
  : Rand (list Q * list Q * list Q * list Q) :=
  if String.eqb water_type "Clear spring fed pond" then
    salinity <- np_random_normal 0.2 0.1 n ;;
    ph <- np_random_normal 7.4 0.3 n ;;
    temperature <- np_random_normal 12 3 n ;;
    dissolved_oxygen <- np_random_normal 9.0 1.0 n ;;
    ret (salinity, ph, temperature, dissolved_oxygen)
  else if String.eqb water_type "vegetated pond" then
    salinity <- np_random_normal 0.6 0.4 n ;;
    ph <- np_random_normal 7.0 0.5 n ;;
    temperature <- np_random_normal 16 4 n ;;
    dissolved_oxygen <- np_random_normal 7.5 1.5 n ;;
    ret (salinity, ph, temperature, dissolved_oxygen)
  else
    salinity <- np_random_normal 1.0 0.6 n ;;
    ph <- np_random_normal 7.8 0.6 n ;;
    temperature <- np_random_normal 17 4 n ;;
    dissolved_oxygen <- np_random_normal 7.2 1.3 n ;;
    ret (salinity, ph, temperature, dissolved_oxygen).

(** The inner loop [for i in range(n_habitat_samples)]: the four arrays are
    walked together, [data] is the list accumulated so far. *)
Fixpoint observation_loop (water_type : string)
    (salinity ph temperature dissolved_oxygen : list Q)
    (data : list Observation) : Rand (list Observation) :=
  match salinity, ph, temperature, dissolved_oxygen with
  | s :: salinity', p :: ph', t :: temperature', d :: dissolved_oxygen' =>
      rgs <- bernoulli (rgs_prob water_type) ;;
      res <- bernoulli (res_prob water_type) ;;
      php <- bernoulli (ph_prob water_type) ;;
      let obs :=
        mkObservation (Z.of_nat (List.length data) + 1) water_type
                      s p t d rgs res php in
      observation_loop water_type salinity' ph' temperature'
                       dissolved_oxygen' (data ++ [obs])
  | _, _, _, _ => ret data
  end.

(** One iteration of [for water_type in water_types]. *)
Definition habitat_block (water_type : string) (n_habitat_samples : nat)
    (data : list Observation) : Rand (list Observation) :=
  env <- draw_environment water_type n_habitat_samples ;;
  let '(salinity, ph, temperature, dissolved_oxygen) := env in
  let salinity := np_clip salinity 0 40 in
  let ph := np_clip ph 6 9 in
  let temperature := np_clip temperature 0 35 in
  let dissolved_oxygen := np_clip dissolved_oxygen 2 12 in
  observation_loop water_type salinity ph temperature dissolved_oxygen data.

Fixpoint habitat_loop (wts : list string) (n_habitat_samples : nat)
    (data : list Observation) : Rand (list Observation) :=
  match wts with
  | [] => ret data
  | water_type :: rest =>
      data' <- habitat_block water_type n_habitat_samples data ;;
      habitat_loop rest n_habitat_samples data'
  end.

(** [generate_habitat_data(n_samples)].  A negative [n_samples // 3] makes
    the first [np.random.normal] raise ValueError before any draw.  When
    [n_samples // 3] is 0 no dict is appended and the result is
    [pd.DataFrame([])], without rows and without columns: the empty list
    stands for that frame here, which is not the header-only empty Dataset
    of the later stages. *)
Definition generate_habitat_data (n_samples : Z) : Rand (option Dataset) :=
  let n_habitat_samples := (n_samples / 3)%Z in
  if (n_habitat_samples <? 0)%Z then ret None
  else
    data <- habitat_loop water_types (Z.to_nat n_habitat_samples) [] ;;
    ret (Some data).

(** One run of the generation stage in a fresh process: importing the
    module executes [np.random.seed(42)] on whatever state the process
    started with, then the entry point calls the generator. *)
Definition generation_stage (n_samples : Z) : Rand (option Dataset) :=
  _ <- np_random_seed 42 ;;
  generate_habitat_data n_samples.

(** Rows per habitat type, in the order of [water_types]. *)
Definition group_sizes (d : Dataset) : list nat :=
  map (fun wt =>
         List.length (filter (fun o => String.eqb (water_body_type o) wt) d))
      water_types.

End WithSource.

End Generator.

(** ** The pandas / NumPy operations the later stages use *)

Module Frame.

(** [Series.unique()]: the distinct values in order of first appearance.
    [seen] is the table of values met so far. *)
Fixpoint unique_from {A : Type} (eqb : A -> A -> bool) (seen l : list A)
  : list A :=
  match l with
  | [] => []
  | x :: xs =>
      if existsb (eqb x) seen then unique_from eqb seen xs
      else x :: unique_from eqb (x :: seen) xs
  end.

Definition unique {A : Type} (eqb : A -> A -> bool) (l : list A) : list A :=
  unique_from eqb [] l.

(** [df[df['water_body_type'] == water_type]] *)
Definition habitat_subset (d : Dataset) (water_type : string) : Dataset :=
  filter (fun o => String.eqb (water_body_type o) water_type) d.

(** [df['water_body_type'].unique()] *)
Definition water_types_of (d : Dataset) : list string :=
  unique String.eqb (map water_body_type d).

(** [Series.sum()] on an integer and on a float column. *)
Definition Zsum (l : list Z) : Z := fold_right Z.add 0%Z l.

Definition Qsum (l : list Q) : Q := fold_right Qplus 0 l.

(** [len(...)] as a Python int. *)
Definition len {A : Type} (l : list A) : Z := Z.of_nat (List.length l).

(** [(occurrences / n_observations) * 100], the expression shared by the
    analyzer and the renderer.  [n_observations] is the size of a subset
    selected by a label taken from the data, so it is positive
    (see [habitat_subset_nonempty]); the value at 0 is not used. *)
Definition rate_percent (occurrences n_observations : Z) : Q :=
  (inject_Z occurrences / inject_Z n_observations) * 100.

(** Insertion sort, for the sorted labels of [pd.crosstab]. *)
Fixpoint insert_sorted {A : Type} (leb : A -> A -> bool) (x : A)
    (l : list A) : list A :=
  match l with
  | [] => [x]
  | y :: ys => if leb x y then x :: l else y :: insert_sorted leb x ys
  end.

Definition sorted {A : Type} (leb : A -> A -> bool) (l : list A) : list A :=
  fold_right (insert_sorted leb) [] l.

End Frame.

(** ** Stage 2: analyze_habitat.py *)

Module Analyzer.

Import Frame.

(** *** calculate_occurrence_rates *)

(** One dict appended to [occurrence_data]. *)
Record OccurrenceRow : Type := mkOccurrenceRow {
  occ_species : Species;
  occ_water_body_type : string;
  occurrences : Z;
  n_observations : Z;
  occurrence_rate : Q
}.

Definition occurrence_row (d : Dataset) (water_type : string) (s : Species)
  : OccurrenceRow :=
  let habitat_subset := habitat_subset d water_type in
  let n_observations := len habitat_subset in
  let occurrences := Zsum (map (present s) habitat_subset) in
  let rate := rate_percent occurrences n_observations in
  mkOccurrenceRow s water_type occurrences n_observations rate.

Definition calculate_occurrence_rates (d : Dataset) : list OccurrenceRow :=
  flat_map (fun water_type => map (occurrence_row d water_type) species)
           (water_types_of d).

(** *** summarize_findings *)

(** Python's [max(iterable, key=...)]: the running maximum is replaced
    only by a strictly greater key; an empty iterable raises ValueError. *)
Definition py_max {A : Type} (key : A -> Q) (l : list A) : option A :=
  match l with
  | [] => None
  | x :: xs =>
      Some (fold_left
              (fun best y => if Qltb (key best) (key y) then y else best)
              xs x)
  end.

Record SummaryRow : Type := mkSummaryRow {
  preferred_habitat : string;
  preference_rate : Q
}.

(** The body of [for species in self.species] in [summarize_findings]. *)
Definition summarize_species (occurrence_rates : list OccurrenceRow)
    (s : Species) : option SummaryRow :=
  let species_data :=
    filter (fun r => Species_eqb (occ_species r) s) occurrence_rates in
  match py_max occurrence_rate species_data with
  | None => None
  | Some preferred =>
      Some (mkSummaryRow (occ_water_body_type preferred)
                         (occurrence_rate preferred))
  end.

Fixpoint summarize_loop (occurrence_rates : list OccurrenceRow)
    (ss : list Species) : option (list (Species * SummaryRow)) :=
  match ss with
  | [] => Some []
  | s :: rest =>
      match summarize_species occurrence_rates s with
      | None => None
      | Some row =>
          match summarize_loop occurrence_rates rest with
          | None => None
          | Some summary => Some ((s, row) :: summary)
          end
      end
  end.

(** [summarize_findings], reading the rates stored in
    [self.results['occurrence_rates']] by [calculate_occurrence_rates]. *)
Definition summarize_findings (d : Dataset)
  : option (list (Species * SummaryRow)) :=
  summarize_loop (calculate_occurrence_rates d) species.

(** *** habitat_similarity and contingency_analysis *)

(** [DataFrame.mean()] of one column ([nanops.nanmean]): NaN on an empty
    column. *)
Definition series_mean (values : list Q) : fval :=
  match values with
  | [] => NaN
  | _ => Val (Qsum values / inject_Z (len values))
  end.

(** [nanops.nanvar]: when [count <= ddof] the divisor is set to NaN,
    otherwise the squared deviations from the mean are summed and divided
    by [count - ddof].  In exact arithmetic the deviations of equal values
    vanish; in float64 the rounded mean can leave a tiny positive
    variance. *)
Definition nanvar (values : list Q) (ddof : Z) : fval :=
  let count := len values in
  if (count <=? ddof)%Z then NaN
  else
    let avg := Qsum values / inject_Z count in
    let sqr := map (fun x => (avg - x) * (avg - x)) values in
    Val (Qsum sqr / inject_Z (count - ddof)).

(** The result of [chi2_contingency]. *)
Record Chi2ContingencyResult : Type := mkChi2ContingencyResult {
  statistic : fval;
  pvalue : fval;
  dof : Z
}.

Inductive ValueError : Type :=
| NegativeObserved   (* All values in `observed` must be nonnegative. *)
| NoData             (* No data; `observed` has size 0. *)
| ZeroExpected       (* ... expected frequencies has a zero element ... *)
| SumsDisagree.      (* ... the sum of the observed frequencies must agree
                        with the sum of the expected frequencies ... *)

(** [pd.crosstab(index, columns)]: one row per distinct index label and one
    column per distinct column label, both sorted; each cell counts the
    rows of the frame that carry the two labels. *)
Record Crosstab : Type := mkCrosstab {
  ct_index : list string;
  ct_columns : list Z;
  ct_values : list (list Z)
}.

Definition crosstab_cell (d : Dataset) (s : Species) (r : string) (c : Z)
  : Z :=
  len (filter (fun o => String.eqb (water_body_type o) r
                        && Z.eqb (present s o) c) d).

Definition crosstab (d : Dataset) (s : Species) : Crosstab :=
  let index := sorted String.leb (water_types_of d) in
  let columns := sorted Z.leb (unique Z.eqb (map (present s) d)) in
  mkCrosstab index columns
    (map (fun r => map (crosstab_cell d s r) columns) index).

Definition row_sums (observed : list (list Z)) : list Z :=
  map Zsum observed.

(** Column sums; the table has [ncols] columns. *)
Definition col_sums (ncols : nat) (observed : list (list Z)) : list Z :=
  map (fun j => Zsum (map (fun row => nth j row 0%Z) observed))
      (seq 0 ncols).

Definition total (observed : list (list Z)) : Z := Zsum (row_sums observed).

Definition ncols_of (observed : list (list Z)) : nat :=
  match observed with
  | [] => 0%nat
  | row :: _ => List.length row
  end.

(** [scipy.stats.contingency.expected_freq] for a table with a positive
    total: outer product of the margins over the total. *)
Definition expected_freq (observed : list (list Z)) : list (list Q) :=
  let t := inject_Z (total observed) in
  map (fun r => map (fun c => inject_Z r * inject_Z c / t)
                    (col_sums (ncols_of observed) observed))
      (row_sums observed).

Fixpoint zip_with {A B C : Type} (f : A -> B -> C) (l : list A)
    (m : list B) : list C :=
  match l, m with
  | a :: l', b :: m' => f a b :: zip_with f l' m'
  | _, _ => []
  end.

Definition Qsign (q : Q) : Q := inject_Z (Z.sgn (Qnum q)).

(** Yates' continuity correction of one cell. *)
Definition yates (o e : Q) : Q :=
  let diff := e - o in
  let direction := Qsign diff in
  let magnitude := Qmin 0.5 (Qabs diff) in
  o + magnitude * direction.

(** Pearson's statistic ([power_divergence] with [lambda_=None]). *)
Definition pearson (observed expected : list (list Q)) : Q :=
  Qsum (map Qsum
          (zip_with (zip_with (fun o e => (o - e) * (o - e) / e))
                    observed expected)).

(** [scipy.stats.power_divergence(f_obs, f_exp, ddof, axis=None)] with
    [lambda_=None], as far as the statistic: the sums of the two tables
    must agree to a relative tolerance of 1e-8, then Pearson's statistic is
    returned.  On the tables that reach it from [chi2_contingency] both sums
    are positive. *)
Definition power_divergence (f_obs f_exp : list (list Q))
  : ValueError + Q :=
  let rtol := 1e-8 in
  let f_obs_sum := Qsum (map Qsum f_obs) in
  let f_exp_sum := Qsum (map Qsum f_exp) in
  let relative_diff :=
    Qabs (f_obs_sum - f_exp_sum) / Qmin f_obs_sum f_exp_sum in
  if Qltb rtol relative_diff then inl SumsDisagree
  else inr (pearson f_obs f_exp).

Section WithSpecialFunctions.

(** [np.sqrt] on a float that is not NaN, and the survival function of
    the chi-square distribution [chi2.sf(x, df)]: library functions,
    taken as parameters. *)
Variable np_sqrt : Q -> Q.
Variable chi2_sf : Q -> Z -> Q.

(** [Series.std()]: the square root of [nanvar] with the default
    [ddof=1]. *)
Definition series_std (values : list Q) : fval :=
  match nanvar values 1 with
  | NaN => NaN
  | Val v => Val (np_sqrt v)
  end.

Record HabitatStats : Type := mkHabitatStats {
  salinity_mean : fval;
  salinity_std : fval;
  pH_mean : fval;
  pH_std : fval;
  temperature_mean : fval;
  temperature_std : fval;
  dissolved_oxygen_mean : fval;
  dissolved_oxygen_std : fval
}.

Definition habitat_stats (d : Dataset) (water_type : string)
  : HabitatStats :=
  let habitat_subset := habitat_subset d water_type in
  mkHabitatStats
    (series_mean (map salinity_ppt habitat_subset))
    (series_std (map salinity_ppt habitat_subset))
    (series_mean (map pH habitat_subset))
    (series_std (map pH habitat_subset))
    (series_mean (map temperature_C habitat_subset))
    (series_std (map temperature_C habitat_subset))
    (series_mean (map dissolved_oxygen_mg_L habitat_subset))
    (series_std (map dissolved_oxygen_mg_L habitat_subset)).

(** [habitat_similarity]: the dict [habitat_stats], in insertion order. *)
Definition habitat_similarity (d : Dataset)
  : list (string * HabitatStats) :=
  map (fun water_type => (water_type, habitat_stats d water_type))
      (water_types_of d).

(** [scipy.stats.chi2_contingency(observed)] with the default
    [correction=True], [lambda_=None], on a two-dimensional table.
    An all-zero table has NaN expected frequencies throughout; they pass
    the zero test and the tolerance test and give NaN results unless [dof]
    is 0.  [power_divergence] is called with [ddof = size - 1 - dof], so
    its chi-square distribution has [dof] degrees of freedom. *)
Definition chi2_contingency (observed : list (list Z))
  : ValueError + Chi2ContingencyResult :=
  let nrows := len observed in
  let ncols := Z.of_nat (ncols_of observed) in
  let size := (nrows * ncols)%Z in
  if existsb (existsb (fun x => (x <? 0)%Z)) observed then
    inl NegativeObserved
  else if (size =? 0)%Z then inl NoData
  else
    let dof := (size - (nrows + ncols) + 2 - 1)%Z in
    if (total observed =? 0)%Z then
      if (dof =? 0)%Z then inr (mkChi2ContingencyResult (Val 0) (Val 1) dof)
      else inr (mkChi2ContingencyResult NaN NaN dof)
    else
      let expected := expected_freq observed in
      if existsb (existsb (fun e => Qeq_bool e 0)) expected then
        inl ZeroExpected
      else if (dof =? 0)%Z then
        inr (mkChi2ContingencyResult (Val 0) (Val 1) dof)
      else
        let observed_f := map (map inject_Z) observed in
        let observed_f :=
          if (dof =? 1)%Z then zip_with (zip_with yates) observed_f expected
          else observed_f in
        match power_divergence observed_f expected with
        | inl e => inl e
        | inr chi2 =>
            inr (mkChi2ContingencyResult (Val chi2) (Val (chi2_sf chi2 dof))
                                         dof)
        end.

(** One entry of [contingency_results]. *)
Record ContingencyRow : Type := mkContingencyRow {
  contingency_table : Crosstab;
  chi2_statistic : fval;
  p_value : fval;
  degrees_of_freedom : Z;
  significant : bool
}.

(** [p_value < 0.05]; a comparison with NaN is false. *)
Definition below_threshold (p : fval) : bool :=
  match p with
  | NaN => false
  | Val q => Qltb q 0.05
  end.

(** The body of [for species in self.species] in
    [contingency_analysis]. *)
Definition contingency_species (d : Dataset) (s : Species)
  : ValueError + ContingencyRow :=
  let contingency := crosstab d s in
  match chi2_contingency (ct_values contingency) with
  | inl e => inl e
  | inr res =>
      inr (mkContingencyRow contingency (statistic res) (pvalue res)
                            (dof res) (below_threshold (pvalue res)))
  end.

Fixpoint contingency_loop (d : Dataset) (ss : list Species)
  : ValueError + list (Species * ContingencyRow) :=
  match ss with
  | [] => inr []
  | s :: rest =>
      match contingency_species d s with
      | inl e => inl e
      | inr row =>
          match contingency_loop d rest with
          | inl e => inl e
          | inr rows => inr ((s, row) :: rows)
          end
      end
  end.

(** [contingency_analysis]: the first exception aborts the loop. *)
Definition contingency_analysis (d : Dataset)
  : ValueError + list (Species * ContingencyRow) :=
  contingency_loop d species.

End WithSpecialFunctions.

End Analyzer.

(** ** Stage 3: visualize_results.py *)

Module Renderer.

Import Frame.

(** One dict appended to [occurrence_data] in
    [plot_occurrence_by_habitat]. *)
Record BarRow : Type := mkBarRow {
  bar_water_body_type : string;
  bar_species : Species;
  bar_occurrence_rate : Q
}.

(** The rate expression of both plots. *)
Definition subset_rate (habitat_subset : Dataset) (s : Species) : Q :=
  rate_percent (Zsum (map (present s) habitat_subset)) (len habitat_subset).

(** The frame [occurrence_df] of [plot_occurrence_by_habitat]. *)
Definition occurrence_data (d : Dataset) : list BarRow :=
  flat_map (fun water_type =>
              let habitat_subset := habitat_subset d water_type in
              map (fun s => mkBarRow water_type s
                                     (subset_rate habitat_subset s))
                  species)
           (water_types_of d).

(** The exceptions the plots can raise before drawing. *)
Inductive Exception : Type :=
| KeyError (key : string)
| IndexError.

(** The list [rates] of one species: for each water type the first row of
    [species_data] with that water type; [.values[0]] raises IndexError
    when there is none. *)
Fixpoint rates_of (species_data : list BarRow) (wts : list string)
  : Exception + list Q :=
  match wts with
  | [] => inr []
  | wt :: rest =>
      match filter (fun r => String.eqb (bar_water_body_type r) wt)
                   species_data with
      | [] => inl IndexError
      | r :: _ =>
          match rates_of species_data rest with
          | inl e => inl e
          | inr rates => inr (bar_occurrence_rate r :: rates)
          end
      end
  end.

(** The heights of the bars of one species.  [pd.DataFrame([])] has no
    columns, so on an empty [occurrence_data] the selection
    [occurrence_df['Species']] raises KeyError; otherwise [species_data]
    holds the rows of the species and [rates] is read from it. *)
Definition bar_rates (occurrence_df : list BarRow) (s : Species)
    (wts : list string) : Exception + list Q :=
  match occurrence_df with
  | [] => inl (KeyError "Species")
  | _ :: _ =>
      rates_of (filter (fun r => Species_eqb (bar_species r) s) occurrence_df)
               wts
  end.

(** The loop over [enumerate(self.species)]: the heights handed to
    [ax.bar], species by species; the first exception ends the loop. *)
Fixpoint bars_loop (occurrence_df : list BarRow) (ss : list Species)
    (wts : list string) : Exception + list (list Q) :=
  match ss with
  | [] => inr []
  | s :: rest =>
      match bar_rates occurrence_df s wts with
      | inl e => inl e
      | inr rates =>
          match bars_loop occurrence_df rest wts with
          | inl e => inl e
          | inr bars => inr (rates :: bars)
          end
      end
  end.

(** The bar heights drawn by [plot_occurrence_by_habitat], one list per
    species. *)
Definition plot_occurrence_by_habitat (d : Dataset)
  : Exception + list (list Q) :=
  bars_loop (occurrence_data d) species (water_types_of d).

(** [heatmap_data] of [plot_heatmap]: one row per water type, one entry
    per species.  This is the array handed to [sns.heatmap]; what the
    drawing does with it is outside the model. *)
Definition plot_heatmap (d : Dataset) : list (list Q) :=
  map (fun water_type =>
         let habitat_subset := habitat_subset d water_type in
         map (fun s => subset_rate habitat_subset s) species)
      (water_types_of d).

(** *** plot_environmental_conditions *)

(** The continuous covariates, in the order of the dict [env_features]. *)
Definition env_features : list (Observation -> Q) :=
  [salinity_ppt; pH; temperature_C; dissolved_oxygen_mg_L].

(** [data_by_type] for one feature: the values of the feature in each
    habitat subset, one group per water type. *)
Definition data_by_type (d : Dataset) (feature : Observation -> Q)
  : list (list Q) :=
  map (fun wt => map feature (habitat_subset d wt)) (water_types_of d).

(** The groups handed to [ax.boxplot] by [plot_environmental_conditions],
    feature by feature. *)
Definition plot_environmental_conditions (d : Dataset)
  : list (list (list Q)) :=
  map (data_by_type d) env_features.

(** *** plot_species_distribution and plot_co_occurrence *)

(** Lookup in a dict or in a Series indexed by labels. *)
Fixpoint assoc {V : Type} (key : string) (l : list (string * V))
  : option V :=
  match l with
  | [] => None
  | (k, v) :: rest => if String.eqb k key then Some v else assoc key rest
  end.

(** [Series.value_counts()]: the number of occurrences of each distinct
    label.  (pandas orders the result by falling count; the plot only reads
    it through [.get], which does not see the order.) *)
Definition value_counts (labels : list string) : list (string * Z) :=
  map (fun l => (l, len (filter (String.eqb l) labels)))
      (unique String.eqb labels).

(** [habitat_counts.get(h, 0)] *)
Definition series_get (counts : list (string * Z)) (h : string)
    (default : Z) : Z :=
  match assoc h counts with
  | Some c => c
  | None => default
  end.

(** The dict [colors] of [plot_species_distribution]. *)
Definition colors : list (string * string) :=
  [("Clear spring fed pond", "#2E86AB"); ("vegetated pond", "#A23B72");
   ("Oxbow analog", "#F18F01")].

(** [[colors[h] for h in habitats]]: the first missing key raises
    KeyError. *)
Fixpoint bar_colors_of (habitats : list string)
  : Exception + list string :=
  match habitats with
  | [] => inr []
  | h :: rest =>
      match assoc h colors with
      | None => inl (KeyError h)
      | Some c =>
          match bar_colors_of rest with
          | inl e => inl e
          | inr cs => inr (c :: cs)
          end
      end
  end.

(** The arguments of [ax.bar] in one panel of
    [plot_species_distribution]. *)
Record SpeciesBars : Type := mkSpeciesBars {
  habitats : list string;
  counts : list Z;
  bar_colors : list string
}.

(** The body of [for idx, species in enumerate(self.species)]. *)
Definition species_panel (d : Dataset) (s : Species)
  : Exception + SpeciesBars :=
  let species_present := filter (fun o => Z.eqb (present s o) 1) d in
  let habitat_counts :=
    value_counts (map water_body_type species_present) in
  let habitats := water_types_of d in
  let counts := map (fun h => series_get habitat_counts h 0%Z) habitats in
  match bar_colors_of habitats with
  | inl e => inl e
  | inr bar_colors => inr (mkSpeciesBars habitats counts bar_colors)
  end.

Fixpoint species_panels (d : Dataset) (ss : list Species)
  : Exception + list (Species * SpeciesBars) :=
  match ss with
  | [] => inr []
  | s :: rest =>
      match species_panel d s with
      | inl e => inl e
      | inr bars =>
          match species_panels d rest with
          | inl e => inl e
          | inr panels => inr ((s, bars) :: panels)
          end
      end
  end.

(** The data drawn by [plot_species_distribution], panel by panel. *)
Definition plot_species_distribution (d : Dataset)
  : Exception + list (Species * SpeciesBars) :=
  species_panels d species.

(** [enumerate(l)] *)
Definition enumerate {A : Type} (l : list A) : list (nat * A) :=
  combine (seq 0 (List.length l)) l.

(** The matrix [co_occur] of one habitat subset: marginal sums on the
    diagonal, joint presence counts elsewhere.  The float64 cells hold
    these integers. *)
Definition co_occur (habitat_subset : Dataset) : list (list Z) :=
  map (fun '(i, sp1) =>
         map (fun '(j, sp2) =>
                if Nat.eqb i j then Zsum (map (present sp1) habitat_subset)
                else len (filter (fun o => Z.eqb (present sp1 o) 1
                                           && Z.eqb (present sp2 o) 1)
                                 habitat_subset))
             (enumerate species))
      (enumerate species).

(** The number of panels created by [plt.subplots(1, 3)]. *)
Definition n_axes : nat := 3.

(** The loop [for idx, water_type in enumerate(self.water_types)] of
    [plot_co_occurrence]: [axes[idx]] raises IndexError from the fourth
    water type on. *)
Fixpoint co_occurrence_loop (d : Dataset) (items : list (nat * string))
  : Exception + list (string * list (list Z)) :=
  match items with
  | [] => inr []
  | (idx, water_type) :: rest =>
      if (idx <? n_axes)%nat then
        match co_occurrence_loop d rest with
        | inl e => inl e
        | inr panels =>
            inr ((water_type, co_occur (habitat_subset d water_type))
                 :: panels)
        end
      else inl IndexError
  end.

Definition plot_co_occurrence (d : Dataset)
  : Exception + list (string * list (list Z)) :=
  co_occurrence_loop d (enumerate (water_types_of d)).

End Renderer.

(** ** The analysis object: class HabitatPreferenceAnalysis *)

Module AnalysisClass.

Import Frame Analyzer.

(** What a method of the class can raise. *)
Inductive Raised : Type :=
| RaisedValueError (e : ValueError)   (* from [chi2_contingency] *)
| RaisedEmptyMax                      (* ValueError: max() arg is empty *)
| RaisedKeyError (key : string).      (* [self.results[key]] is missing *)

Section WithSpecialFunctions.

Variable np_sqrt : Q -> Q.
Variable chi2_sf : Q -> Z -> Q.

(** The dict [self.results]: each of its four keys is absent or holds the
    value stored by the method of that name. *)
Record Results : Type := mkResults {
  results_contingency_analysis : option (list (Species * ContingencyRow));
  results_occurrence_rates : option (list OccurrenceRow);
  results_habitat_characteristics : option (list (string * HabitatStats));
  results_summary : option (list (Species * SummaryRow))
}.

(** The object after [__init__]: the frame read from the file and
    [self.results = {}]. *)
Record HabitatPreferenceAnalysis : Type := mkHabitatPreferenceAnalysis {
  df : Dataset;
  results : Results
}.

Definition init (d : Dataset) : HabitatPreferenceAnalysis :=
  mkHabitatPreferenceAnalysis d (mkResults None None None None).

(** A method: it returns or raises, and leaves the object in a new
    state. *)
Definition Method (A : Type) : Type :=
  HabitatPreferenceAnalysis -> (Raised + A) * HabitatPreferenceAnalysis.

Definition contingency_analysis
  : Method (list (Species * ContingencyRow)) :=
  fun self =>
    match Analyzer.contingency_analysis chi2_sf (df self) with
    | inl e => (inl (RaisedValueError e), self)
    | inr contingency_results =>
        let r := results self in
        (inr contingency_results,
         mkHabitatPreferenceAnalysis (df self)
           (mkResults (Some contingency_results)
                      (results_occurrence_rates r)
                      (results_habitat_characteristics r)
                      (results_summary r)))
    end.

Definition calculate_occurrence_rates : Method (list OccurrenceRow) :=
  fun self =>
    let occurrence_df := Analyzer.calculate_occurrence_rates (df self) in
    let r := results self in
    (inr occurrence_df,
     mkHabitatPreferenceAnalysis (df self)
       (mkResults (results_contingency_analysis r)
                  (Some occurrence_df)
                  (results_habitat_characteristics r)
                  (results_summary r))).

Definition habitat_similarity : Method (list (string * HabitatStats)) :=
  fun self =>
    let habitat_stats := Analyzer.habitat_similarity np_sqrt (df self) in
    let r := results self in
    (inr habitat_stats,
     mkHabitatPreferenceAnalysis (df self)
       (mkResults (results_contingency_analysis r)
                  (results_occurrence_rates r)
                  (Some habitat_stats)
                  (results_summary r))).

(** [summarize_findings] reads [self.results['occurrence_rates']] in the
    first iteration of its loop. *)
Definition summarize_findings : Method (list (Species * SummaryRow)) :=
  fun self =>
    let r := results self in
    match results_occurrence_rates r with
    | None => (inl (RaisedKeyError "occurrence_rates"), self)
    | Some occurrence_rates =>
        match summarize_loop occurrence_rates species with
        | None => (inl RaisedEmptyMax, self)
        | Some summary =>
            (inr summary,
             mkHabitatPreferenceAnalysis (df self)
               (mkResults (results_contingency_analysis r)
                          (results_occurrence_rates r)
                          (results_habitat_characteristics r)
                          (Some summary)))
        end
    end.

(** Sequencing of two calls: an exception ends the sequence. *)
Definition and_then {A B : Type} (m : Method A) (k : Method B) : Method B :=
  fun self =>
    match m self with
    | (inl e, self') => (inl e, self')
    | (inr _, self') => k self'
    end.

Definition run_full_analysis : Method Results :=
  and_then contingency_analysis
    (and_then calculate_occurrence_rates
       (and_then habitat_similarity
          (and_then summarize_findings
             (fun self => (inr (results self), self))))).

End WithSpecialFunctions.

End AnalysisClass.

(** ** Vocabulary of the statements *)

Module Vocabulary.

Import Frame Analyzer.

(** A presence indicator that is exactly 0 or exactly 1. *)
Definition binary (z : Z) : Prop := z = 0%Z \/ z = 1%Z.

(** A row whose covariates lie in the clipping intervals and whose
    presence indicators are 0 or 1. *)
Record plausible (o : Observation) : Prop := mkPlausible {
  salinity_range : 0 <= salinity_ppt o /\ salinity_ppt o <= 40;
  pH_range : 6 <= pH o /\ pH o <= 9;
  temperature_range : 0 <= temperature_C o /\ temperature_C o <= 35;
  dissolved_oxygen_range :
    2 <= dissolved_oxygen_mg_L o /\ dissolved_oxygen_mg_L o <= 12;
  RGS_binary : binary (RGS_present o);
  RES_binary : binary (RES_present o);
  PH_binary : binary (PH_present o)
}.

(** The identifiers [start+1, start+2, ...] of [n] consecutive rows. *)
Definition ids_from (start n : nat) : list Z :=
  map (fun k => (Z.of_nat k + 1)%Z) (seq start n).

(** [x] lies in the closed interval from [lo] to [hi]. *)
Definition within (lo hi x : Q) : Prop := lo <= x /\ x <= hi.

(** A Dataset whose presence indicators are all 0 or 1, as the data model
    requires. *)
Definition binary_presence (d : Dataset) : Prop :=
  Forall (fun o => forall s, binary (present s o)) d.

(** Position of the first occurrence of [x] in [l] ([length l] if none). *)
Fixpoint first_index {A : Type} (eqb : A -> A -> bool) (x : A) (l : list A)
  : nat :=
  match l with
  | [] => 0
  | y :: ys => if eqb y x then 0 else S (first_index eqb x ys)
  end.

(** The number of rows with the presence indicator of [s] set. *)
Definition presence_count (s : Species) (d : Dataset) : Z :=
  len (filter (fun o => Z.eqb (present s o) 1) d).

(** The occurrence rate of the specification: the fraction of the
    observations of a habitat type with the indicator set, as a
    percentage. *)
Definition occurrence_percentage (s : Species) (d : Dataset)
    (water_type : string) : Q :=
  let subset := habitat_subset d water_type in
  (inject_Z (presence_count s subset) / inject_Z (len subset)) * 100.

(** Sample mean and unbiased (n-1) sample variance. *)
Definition sample_mean (xs : list Q) : Q :=
  Qsum xs / inject_Z (len xs).

Definition unbiased_variance (xs : list Q) : Q :=
  Qsum (map (fun x => (x - sample_mean xs) * (x - sample_mean xs)) xs)
  / inject_Z (len xs - 1).

(** [row] names the first water type, in the iteration order
    [water_types_of d], at which the occurrence rate of [s] is greatest. *)
Definition first_maximum (d : Dataset) (s : Species) (row : SummaryRow)
  : Prop :=
  exists i,
    nth_error (water_types_of d) i = Some (preferred_habitat row)
    /\ preference_rate row
       = occurrence_rate (occurrence_row d (preferred_habitat row) s)
    /\ (forall wt, In wt (water_types_of d) ->
          occurrence_rate (occurrence_row d wt s) <= preference_rate row)
    /\ (forall j wt, (j < i)%nat ->
          nth_error (water_types_of d) j = Some wt ->
          occurrence_rate (occurrence_row d wt s) < preference_rate row).

(** [l] lists the distinct water types of [d] in the order of their first
    appearance in the Dataset. *)
Definition first_appearance_order (d : Dataset) (l : list string) : Prop :=
  NoDup l
  /\ (forall wt, In wt l <-> In wt (map water_body_type d))
  /\ (forall i j a b, (i < j)%nat ->
        nth_error l i = Some a -> nth_error l j = Some b ->
        (first_index String.eqb a (map water_body_type d)
         < first_index String.eqb b (map water_body_type d))%nat).

(** The pair [(m, sd)] reports sample mean and sample standard deviation of
    [xs] with the n-1 divisor: the mean is a number; with one value the
    deviation is NaN; with two or more it is the square root of the unbiased
    variance. *)
Definition described_by (np_sqrt : Q -> Q) (xs : list Q) (m sd : fval)
  : Prop :=
  (exists mu, m = Val mu /\ mu == sample_mean xs)
  /\ (List.length xs = 1%nat -> sd = NaN)
  /\ ((2 <= List.length xs)%nat ->
      exists v, sd = Val (np_sqrt v) /\ v == unbiased_variance xs).

(** The row of the bar-chart frame for a species and a water type. *)
Definition bar_of (d : Dataset) (s : Species) (wt : string)
  : Renderer.BarRow :=
  Renderer.mkBarRow wt s (Renderer.subset_rate (habitat_subset d wt) s).

(** The presence indicator of [s] has the same value in every row. *)
Definition uniform_presence (s : Species) (d : Dataset) : Prop :=
  exists v, Forall (fun o => present s o = v) d.

(** A degenerate contingency input: some species is absent from every
    observation or present in every observation.  (A habitat type without
    observations has no label in the Dataset, so it has no row in the
    cross-tabulation either.) *)
Definition degenerate (d : Dataset) : Prop :=
  exists s, Forall (fun o => present s o = 0%Z) d
            \/ Forall (fun o => present s o = 1%Z) d.

End Vocabulary.

(** ** Sample inputs *)

Module Sample.

Definition row (i : Z) (w : string) (sal : Q) (rgs res ph : Z)
  : Observation :=
  mkObservation i w sal 7 15 8 rgs res ph.

(** Three habitat types with three rows each; RGS is present in "A"
    only, RES nowhere. *)
Definition nine_rows : Dataset :=
  [row 1 "A" 0.1 1 0 1; row 2 "A" 0.2 1 0 0; row 3 "A" 0.3 1 0 1;
   row 4 "B" 0.4 0 0 1; row 5 "B" 0.5 0 0 1; row 6 "B" 0.6 0 0 0;
   row 7 "C" 0.7 0 0 1; row 8 "C" 0.8 0 0 1; row 9 "C" 0.9 0 0 1].

(** A habitat type with a single observation. *)
Definition lone_row : Dataset :=
  [row 1 "A" 0.1 1 0 1; row 2 "B" 0.4 0 0 1; row 3 "B" 0.6 0 1 1].

(** Two habitat types and two presence values: a 2 x 2 table, the shape
    that takes Yates' correction. *)
Definition two_by_two : Dataset :=
  [row 1 "A" 0.1 1 0 1; row 2 "A" 0.2 1 0 1; row 3 "A" 0.3 1 0 1;
   row 4 "A" 0.4 0 0 1; row 5 "B" 0.5 1 0 1; row 6 "B" 0.6 0 0 1;
   row 7 "B" 0.7 0 0 1; row 8 "B" 0.8 0 0 1].

(** Stand-ins for the library functions, to run the model: a rational
    square root rounded down to the denominator, and a survival function
    that is 1 at 0 and falls with the statistic. *)
Definition sqrt_down (q : Q) : Q :=
  Z.sqrt (Qnum q * Z.pos (Qden q)) # Qden q.

Definition sf_stand_in (x : Q) (df : Z) : Q :=
  if Qle_bool x 0 then 1 else 1 / (1 + x).

End Sample.

(** ** Vocabulary of the further properties *)

Module MoreVocabulary.

Import Frame Analyzer Vocabulary.

(** [sd] is a standard deviation of [xs] as [Series.std] reports it: NaN
    below two values, otherwise the root of a non-negative variance. *)
Definition root_of_variance (np_sqrt : Q -> Q) (xs : list Q) (sd : fval)
  : Prop :=
  ((List.length xs <= 1)%nat -> sd = NaN)
  /\ ((2 <= List.length xs)%nat ->
      exists v, sd = Val (np_sqrt v) /\ 0 <= v).

(** [m] is a number between [lo] and [hi]. *)
Definition mean_within (lo hi : Q) (m : fval) : Prop :=
  exists mu, m = Val mu /\ lo <= mu /\ mu <= hi.

End MoreVocabulary.

(** ** Further sample inputs *)

Module MoreSample.

(** Rows of the three water types of the generator. *)
Definition pond_rows : Dataset :=
  [Sample.row 1 "Clear spring fed pond" 0.1 1 0 1;
   Sample.row 2 "Clear spring fed pond" 0.2 1 0 0;
   Sample.row 3 "vegetated pond" 0.5 0 0 1;
   Sample.row 4 "Oxbow analog" 1.2 0 1 1;
   Sample.row 5 "Oxbow analog" 0.9 1 1 0].

(** The same rows with a fourth water type, "Estuary". *)
Definition four_types : Dataset :=
  pond_rows ++ [Sample.row 6 "Estuary" 30 0 0 1].

End MoreSample.

(** * Verified properties *)

(** ** Stage 1: the generator *)

Module GeneratorFacts.

Import Generator Vocabulary.

Section WithSource.

Variable R : RandomSource.

Lemma clip_within a lo hi : lo <= hi -> within lo hi (clip a lo hi).
Proof.
  intro Hle. unfold within, clip. split.
  - apply Q.min_glb; [apply Q.le_max_r | exact Hle].
  - apply Q.le_min_r.
Qed.

Lemma np_clip_within a lo hi :
  lo <= hi -> Forall (within lo hi) (np_clip a lo hi).
Proof.
  intro Hle. unfold np_clip. apply Forall_forall. intros x Hx.
  apply in_map_iff in Hx. destruct Hx as [y [<- _]].
  now apply clip_within.
Qed.

Lemma np_clip_length a lo hi :
  List.length (np_clip a lo hi) = List.length a.
Proof. unfold np_clip. apply length_map. Qed.

Lemma np_random_normal_length loc scale n g :
  List.length (fst (np_random_normal R loc scale n g)) = n.
Proof.
  revert g. induction n as [|n IH]; intro g; simpl; [reflexivity|].
  unfold bind. destruct (rs_normal R loc scale g) as [x g1].
  specialize (IH g1).
  destruct (np_random_normal R loc scale n g1) as [xs g2].
  simpl in *. now rewrite IH.
Qed.

Lemma draw_environment_length wt n g :
  let '(s, p, t, d) := fst (draw_environment R wt n g) in
  List.length s = n /\ List.length p = n /\ List.length t = n
  /\ List.length d = n.
Proof.
  unfold draw_environment.
  assert (four : forall a1 a2 b1 b2 c1 c2 d1 d2,
    let '(s, p, t, d) :=
      fst (bind R (np_random_normal R a1 a2 n) (fun salinity =>
           bind R (np_random_normal R b1 b2 n) (fun ph =>
           bind R (np_random_normal R c1 c2 n) (fun temperature =>
           bind R (np_random_normal R d1 d2 n) (fun dissolved_oxygen =>
           ret R (salinity, ph, temperature, dissolved_oxygen))))) g) in
    List.length s = n /\ List.length p = n /\ List.length t = n
    /\ List.length d = n).
  { intros. unfold bind, ret.
    pose proof (np_random_normal_length a1 a2 n g) as H1.
    destruct (np_random_normal R a1 a2 n g) as [s g1].
    pose proof (np_random_normal_length b1 b2 n g1) as H2.
    destruct (np_random_normal R b1 b2 n g1) as [p g2].
    pose proof (np_random_normal_length c1 c2 n g2) as H3.
    destruct (np_random_normal R c1 c2 n g2) as [t g3].
    pose proof (np_random_normal_length d1 d2 n g3) as H4.
    destruct (np_random_normal R d1 d2 n g3) as [d g4].
    simpl in *. auto. }
  destruct (String.eqb wt "Clear spring fed pond"); [apply four|].
  destruct (String.eqb wt "vegetated pond"); apply four.
Qed.

Lemma bernoulli_binary p g : binary (fst (bernoulli R p g)).
Proof.
  unfold bernoulli, bind, ret. destruct (rs_random R g) as [u g1]. simpl.
  unfold binary. destruct (Qltb u p); auto.
Qed.

(** The inner loop appends one row per array element, numbered on from
    the rows already present. *)
Lemma observation_loop_spec wt :
  forall sal ph temp dox data g,
    List.length ph = List.length sal ->
    List.length temp = List.length sal ->
    List.length dox = List.length sal ->
    Forall (within 0 40) sal -> Forall (within 6 9) ph ->
    Forall (within 0 35) temp -> Forall (within 2 12) dox ->
    exists new,
      fst (observation_loop R wt sal ph temp dox data g) = data ++ new
      /\ map water_body_type new = repeat wt (List.length sal)
      /\ map observation_id new
         = ids_from (List.length data) (List.length sal)
      /\ Forall plausible new.
Proof.
  induction sal as [|s sal IH]; intros ph temp dox data g Hp Ht Hd Fs Fp Ft Fd.
  - exists []. simpl. unfold ret. simpl. rewrite app_nil_r. auto.
  - destruct ph as [|p ph]; [discriminate|].
    destruct temp as [|t temp]; [discriminate|].
    destruct dox as [|x dox]; [discriminate|].
    simpl in Hp, Ht, Hd.
    inversion Fs as [|? ? Hs Fs']; inversion Fp as [|? ? Hpp Fp'];
      inversion Ft as [|? ? Htt Ft']; inversion Fd as [|? ? Hdd Fd'];
      subst.
    cbn [observation_loop]. unfold bind at 1.
    pose proof (bernoulli_binary (rgs_prob wt) g) as B1.
    destruct (bernoulli R (rgs_prob wt) g) as [rgs g1].
    unfold bind at 1.
    pose proof (bernoulli_binary (res_prob wt) g1) as B2.
    destruct (bernoulli R (res_prob wt) g1) as [res g2].
    unfold bind at 1.
    pose proof (bernoulli_binary (ph_prob wt) g2) as B3.
    destruct (bernoulli R (ph_prob wt) g2) as [php g3].
    simpl in B1, B2, B3.
    set (obs := mkObservation _ wt s p t x rgs res php).
    destruct (IH ph temp dox (data ++ [obs]) g3) as [new [E [W [I P]]]];
      try lia; auto.
    exists (obs :: new). rewrite E, <- app_assoc. simpl.
    split; [reflexivity|]. split; [now rewrite W|]. split.
    + rewrite I. unfold ids_from. rewrite length_app. simpl.
      replace (List.length data + 1)%nat with (S (List.length data))
        by lia.
      reflexivity.
    + constructor; [|exact P]. subst obs. constructor; simpl; auto.
Qed.

Lemma habitat_block_spec wt n data g :
  exists new,
    fst (habitat_block R wt n data g) = data ++ new
    /\ map water_body_type new = repeat wt n
    /\ map observation_id new = ids_from (List.length data) n
    /\ Forall plausible new.
Proof.
  unfold habitat_block, bind.
  pose proof (draw_environment_length wt n g) as L.
  destruct (draw_environment R wt n g) as [[[[s p] t] d] g1].
  simpl in L. destruct L as [Ls [Lp [Lt Ld]]].
  destruct (observation_loop_spec wt (np_clip s 0 40) (np_clip p 6 9)
              (np_clip t 0 35) (np_clip d 2 12) data g1)
    as [new [E [W [I P]]]];
    rewrite ?np_clip_length; try congruence;
    try (apply np_clip_within; discriminate).
  exists new. rewrite np_clip_length, Ls in W, I. auto.
Qed.

Lemma ids_from_app start n m :
  ids_from start (n + m) = ids_from start n ++ ids_from (start + n) m.
Proof. unfold ids_from. now rewrite seq_app, map_app. Qed.

Lemma habitat_loop_spec n :
  forall wts data g,
    exists new,
      fst (habitat_loop R wts n data g) = data ++ new
      /\ map water_body_type new = flat_map (fun wt => repeat wt n) wts
      /\ map observation_id new
         = ids_from (List.length data) (List.length wts * n)
      /\ Forall plausible new.
Proof.
  induction wts as [|wt wts IH]; intros data g.
  - exists []. simpl. unfold ret. simpl. rewrite app_nil_r. auto.
  - cbn [habitat_loop]. unfold bind.
    destruct (habitat_block_spec wt n data g) as [b [E [W [I P]]]].
    destruct (habitat_block R wt n data g) as [data' g1].
    simpl in E. subst data'.
    destruct (IH (data ++ b) g1) as [new [E' [W' [I' P']]]].
    exists (b ++ new). rewrite E', <- app_assoc.
    split; [reflexivity|]. split; [|split].
    + rewrite map_app, W, W'. reflexivity.
    + rewrite map_app, I, I'. cbn [List.length Nat.mul].
      rewrite ids_from_app, length_app.
      assert (Lb : List.length b = n).
      { rewrite <- (length_map water_body_type), W. apply repeat_length. }
      now rewrite Lb.
    + apply Forall_app. auto.
Qed.

(** What [generate_habitat_data] returns for a non-negative request. *)
Lemma generate_habitat_data_spec n_samples g :
  (0 <= n_samples)%Z ->
  exists d,
    fst (generate_habitat_data R n_samples g) = Some d
    /\ map water_body_type d
       = flat_map (fun wt => repeat wt (Z.to_nat (n_samples / 3)))
                  water_types
    /\ map observation_id d
       = ids_from 0 (3 * Z.to_nat (n_samples / 3))
    /\ Forall plausible d.
Proof.
  intro Hn. unfold generate_habitat_data.
  assert (Hq : (0 <= n_samples / 3)%Z) by (apply Z.div_pos; lia).
  destruct (Z.ltb_spec (n_samples / 3) 0) as [Hneg|_]; [lia|].
  unfold bind, ret.
  destruct (habitat_loop_spec (Z.to_nat (n_samples / 3)) water_types [] g)
    as [new [E [W [I P]]]].
  destruct (habitat_loop R water_types _ [] g) as [data g1].
  simpl in E. subst data. exists new. simpl. auto.
Qed.

(** A negative request raises. *)
Lemma generate_habitat_data_negative n_samples g :
  (n_samples < 0)%Z -> fst (generate_habitat_data R n_samples g) = None.
Proof.
  intro Hn. unfold generate_habitat_data.
  assert (Hq : (n_samples / 3 < 0)%Z) by (apply Z.div_lt_upper_bound; lia).
  destruct (Z.ltb_spec (n_samples / 3) 0) as [_|Hge]; [reflexivity|lia].
Qed.

Lemma group_sizes_of_labels (d : Dataset) :
  group_sizes d
  = map (fun wt =>
           List.length (filter (fun w => String.eqb w wt)
                               (map water_body_type d)))
        water_types.
Proof.
  unfold group_sizes. apply map_ext. intro wt.
  now rewrite filter_map_swap, length_map.
Qed.

(** C1. Evaluation of [generate_habitat_data] at the request of the
    end-to-end scenario, 500 observations, for every random source: each
    habitat type receives [500 // 3 = 166] rows and the remainder of the
    division is dropped, so the Dataset has 498 rows in groups of 166, 166
    and 166, in generation order; it does not have the 500 rows that the
    scenario and the docstring of the function ([n_samples]: number of
    total observations) announce. *)
Theorem generate_500_has_498_rows g :
  exists d,
    fst (generate_habitat_data R 500 g) = Some d
    /\ List.length d = 498%nat
    /\ List.length d <> 500%nat
    /\ group_sizes d = [166; 166; 166]%nat
    /\ map water_body_type d
       = repeat "Clear spring fed pond" 166
         ++ repeat "vegetated pond" 166 ++ repeat "Oxbow analog" 166.
Proof.
  destruct (generate_habitat_data_spec 500 g) as [d [E [W _]]]; [lia|].
  exists d. split; [exact E|].
  change (Z.to_nat (500 / 3)) with 166%nat in W.
  assert (L : List.length d = 498%nat).
  { rewrite <- (length_map water_body_type), W. reflexivity. }
  rewrite L. split; [reflexivity|]. split; [discriminate|]. split.
  - rewrite group_sizes_of_labels, W. reflexivity.
  - rewrite W. cbn [flat_map water_types]. now rewrite app_nil_r.
Qed.

(** The Dataset returned for a request, if any, is the one described by
    [generate_habitat_data_spec]. *)
Lemma generate_habitat_data_inv n_samples g d :
  fst (generate_habitat_data R n_samples g) = Some d ->
  (0 <= n_samples)%Z
  /\ map water_body_type d
     = flat_map (fun wt => repeat wt (Z.to_nat (n_samples / 3))) water_types
  /\ map observation_id d = ids_from 0 (3 * Z.to_nat (n_samples / 3))
  /\ Forall plausible d.
Proof.
  intro E. destruct (Z_lt_le_dec n_samples 0) as [Hneg|Hpos].
  - rewrite (generate_habitat_data_negative n_samples g Hneg) in E.
    discriminate.
  - destruct (generate_habitat_data_spec n_samples g Hpos) as [d' [E' H]].
    rewrite E in E'. injection E' as <-. auto.
Qed.

(** The number of rows is three times the integer third of the request, and
    is the request itself exactly when that is a multiple of 3. *)
Lemma generate_row_count n_samples g d :
  fst (generate_habitat_data R n_samples g) = Some d ->
  Z.of_nat (List.length d) = (3 * (n_samples / 3))%Z
  /\ (Z.of_nat (List.length d) = n_samples <-> (n_samples mod 3 = 0)%Z).
Proof.
  intro E. destruct (generate_habitat_data_inv n_samples g d E)
    as [Hn [_ [I _]]].
  assert (L : List.length d = (3 * Z.to_nat (n_samples / 3))%nat).
  { rewrite <- (length_map observation_id), I. unfold ids_from.
    now rewrite length_map, length_seq. }
  assert (Hq : (0 <= n_samples / 3)%Z) by (apply Z.div_pos; lia).
  pose proof (Z.div_mod n_samples 3 ltac:(lia)) as Hdm.
  rewrite L. split; lia.
Qed.

(** C4. Every Dataset produced by [generate_habitat_data], for any sample
    count and any random source, has salinity in [0, 40], pH in [6, 9],
    temperature in [0, 35], dissolved oxygen in [2, 12] and presence
    indicators equal to 0 or 1 in every row; a Dataset is produced for
    every request [n_samples >= 0]. *)
Theorem generated_rows_plausible n_samples g :
  (forall d, fst (generate_habitat_data R n_samples g) = Some d ->
             Forall plausible d)
  /\ ((0 <= n_samples)%Z ->
      exists d, fst (generate_habitat_data R n_samples g) = Some d).
Proof.
  split.
  - intros d E. now destruct (generate_habitat_data_inv n_samples g d E)
      as [_ [_ [_ P]]].
  - intro Hn.
    destruct (generate_habitat_data_spec n_samples g Hn) as [d [E _]].
    now exists d.
Qed.

(** The import-time [np.random.seed(42)] discards the state the process
    started with: the stage is the generator run from the seeded state. *)
Lemma generation_stage_seeded n_samples g :
  generation_stage R n_samples g
  = generate_habitat_data R n_samples (rs_seed R 42).
Proof. reflexivity. Qed.

Lemma nth_error_ids_from start n k :
  (k < n)%nat ->
  nth_error (ids_from start n) k = Some (Z.of_nat (start + k) + 1)%Z.
Proof.
  intro Hk. unfold ids_from. rewrite nth_error_map, nth_error_seq.
  apply Nat.ltb_lt in Hk. now rewrite Hk.
Qed.

Lemma NoDup_ids_from start n : NoDup (ids_from start n).
Proof.
  unfold ids_from. apply Injective_map_NoDup; [|apply seq_NoDup].
  intros a b H. lia.
Qed.

(** C10. In every generated Dataset the k-th row (1-based) has
    [observation_id = k], so the identifiers are distinct, and the rows
    of one habitat type are contiguous, in the order of the hard-coded
    list of water types; a Dataset is produced for every request
    [n_samples >= 0]. *)
Theorem observation_ids_consecutive n_samples g :
  (forall d,
     fst (generate_habitat_data R n_samples g) = Some d ->
     (forall k o, nth_error d k = Some o ->
                  observation_id o = (Z.of_nat k + 1)%Z)
     /\ NoDup (map observation_id d)
     /\ map water_body_type d
        = repeat "Clear spring fed pond" (Z.to_nat (n_samples / 3))
          ++ repeat "vegetated pond" (Z.to_nat (n_samples / 3))
          ++ repeat "Oxbow analog" (Z.to_nat (n_samples / 3)))
  /\ ((0 <= n_samples)%Z ->
      exists d, fst (generate_habitat_data R n_samples g) = Some d).
Proof.
  split.
  - intros d E.
    destruct (generate_habitat_data_inv n_samples g d E) as [_ [W [I _]]].
    split; [|split].
    + intros k o Hk.
      pose proof (map_nth_error observation_id k d Hk) as Hm.
      rewrite I in Hm.
      unfold ids_from in Hm. rewrite nth_error_map, nth_error_seq in Hm.
      destruct (k <? 3 * Z.to_nat (n_samples / 3))%nat; [|discriminate].
      simpl in Hm. now injection Hm as <-.
    + rewrite I. apply NoDup_ids_from.
    + rewrite W. simpl. now rewrite app_nil_r.
  - intro Hn.
    destruct (generate_habitat_data_spec n_samples g Hn) as [d [E _]].
    now exists d.
Qed.

End WithSource.

(** The generator run on the linear congruential source. *)
Lemma generated_rows_plausible_witness :
  (0 <= 9)%Z
  /\ exists d,
       fst (generate_habitat_data LCG.source 9 42%Z) = Some d
       /\ Forall plausible d.
Proof.
  split; [lia|].
  destruct (proj2 (generated_rows_plausible LCG.source 9 42%Z)) as [d E];
    [lia|].
  exists d. split; [exact E|].
  exact (proj1 (generated_rows_plausible LCG.source 9 42%Z) d E).
Defined.

Lemma observation_ids_consecutive_witness :
  (0 <= 500)%Z
  /\ exists d,
       fst (generate_habitat_data LCG.source 500 42%Z) = Some d
       /\ (forall k o, nth_error d k = Some o ->
                       observation_id o = (Z.of_nat k + 1)%Z)
       /\ NoDup (map observation_id d).
Proof.
  split; [lia|].
  destruct (proj2 (observation_ids_consecutive LCG.source 500 42%Z))
    as [d E]; [lia|].
  exists d. split; [exact E|].
  destruct (proj1 (observation_ids_consecutive LCG.source 500 42%Z) d E)
    as [Hid [Hnd _]].
  split; assumption.
Defined.

(** The first rows of the run from seed 42 on the linear congruential
    source, for a request of 7 observations: two rows per habitat type. *)
Example generate_7_rows :
  option_map (map (fun o => (observation_id o, water_body_type o,
                             RGS_present o, RES_present o, PH_present o)))
             (fst (generation_stage LCG.source 7 0%Z))
  = Some [(1, "Clear spring fed pond", 1, 0, 0);
          (2, "Clear spring fed pond", 1, 0, 0);
          (3, "vegetated pond", 0, 0, 1);
          (4, "vegetated pond", 0, 1, 1);
          (5, "Oxbow analog", 1, 1, 1);
          (6, "Oxbow analog", 0, 1, 1)]%Z.
Proof. vm_compute. reflexivity. Qed.

End GeneratorFacts.


(** ** The frame operations *)

Module FrameFacts.

Import Frame Vocabulary.

Lemma Qltb_lt x y : Qltb x y = true <-> x < y.
Proof.
  unfold Qltb. rewrite negb_true_iff. split.
  - intro H. apply Qnot_le_lt. intro Hle.
    apply Qle_bool_iff in Hle. congruence.
  - intro H. destruct (Qle_bool y x) eqn:E; [|reflexivity].
    apply Qle_bool_iff in E. exfalso. now apply (Qlt_not_le x y).
Qed.

Lemma Qltb_ge x y : Qltb x y = false <-> y <= x.
Proof.
  unfold Qltb. rewrite negb_false_iff. apply Qle_bool_iff.
Qed.

Section Unique.

Context {A : Type} (eqb : A -> A -> bool).
Hypothesis eqb_eq : forall a b, eqb a b = true <-> a = b.

Lemma existsb_eqb_In x seen : existsb (eqb x) seen = true <-> In x seen.
Proof.
  rewrite existsb_exists. split.
  - intros [y [Hy E]]. apply eqb_eq in E. now subst.
  - intro H. exists x. split; [exact H | now apply eqb_eq].
Qed.

Lemma In_unique_from x :
  forall l seen, In x (unique_from eqb seen l) <-> In x l /\ ~ In x seen.
Proof.
  induction l as [|y l IH]; intro seen; simpl.
  - tauto.
  - destruct (existsb (eqb y) seen) eqn:E.
    + apply existsb_eqb_In in E. rewrite IH. split.
      * tauto.
      * intros [[->|H] Hn]; tauto.
    + assert (Hy : ~ In y seen).
      { intro H. apply existsb_eqb_In in H. congruence. }
      simpl. rewrite IH. simpl. split.
      * intros [->|[H Hn]]; tauto.
      * intros [[->|H] Hn]; [tauto|].
        destruct (eqb y x) eqn:Eyx.
        -- apply eqb_eq in Eyx. tauto.
        -- right. split; [exact H|]. intros [->|Hs]; [|tauto].
           assert (eqb x x = true) by now apply eqb_eq. congruence.
Qed.

Lemma In_unique x l : In x (unique eqb l) <-> In x l.
Proof. unfold unique. rewrite In_unique_from. simpl. tauto. Qed.

Lemma NoDup_unique_from : forall l seen, NoDup (unique_from eqb seen l).
Proof.
  induction l as [|y l IH]; intro seen; simpl; [constructor|].
  destruct (existsb (eqb y) seen); [apply IH|].
  constructor; [|apply IH].
  rewrite In_unique_from. simpl. tauto.
Qed.

Lemma NoDup_unique l : NoDup (unique eqb l).
Proof. apply NoDup_unique_from. Qed.

Lemma first_index_cons_neq x y l :
  x <> y -> first_index eqb x (y :: l) = S (first_index eqb x l).
Proof.
  intro H. simpl. destruct (eqb y x) eqn:E; [|reflexivity].
  apply eqb_eq in E. congruence.
Qed.

Lemma first_index_cons_eq x l : first_index eqb x (x :: l) = 0%nat.
Proof.
  simpl. assert (eqb x x = true) as -> by now apply eqb_eq. reflexivity.
Qed.

(** The values of [unique] come in the order of their first occurrences. *)
Lemma unique_from_first_appearance :
  forall l seen i j a b,
    (i < j)%nat ->
    nth_error (unique_from eqb seen l) i = Some a ->
    nth_error (unique_from eqb seen l) j = Some b ->
    (first_index eqb a l < first_index eqb b l)%nat.
Proof.
  induction l as [|y l IH]; intros seen i j a b Hij Ha Hb.
  - simpl in Ha. destruct i; discriminate.
  - simpl in Ha, Hb. destruct (existsb (eqb y) seen) eqn:E.
    + apply existsb_eqb_In in E.
      assert (Na : a <> y).
      { apply nth_error_In in Ha. apply In_unique_from in Ha.
        intros ->. tauto. }
      assert (Nb : b <> y).
      { apply nth_error_In in Hb. apply In_unique_from in Hb.
        intros ->. tauto. }
      rewrite !first_index_cons_neq by assumption.
      apply -> Nat.succ_lt_mono. apply (IH seen i j a b); assumption.
    + destruct j as [|j]; [lia|]. simpl in Hb.
      assert (Nb : b <> y).
      { apply nth_error_In in Hb. apply In_unique_from in Hb.
        intros ->. simpl in Hb. tauto. }
      rewrite (first_index_cons_neq b y l Nb).
      destruct i as [|i].
      * simpl in Ha. injection Ha as <-. rewrite first_index_cons_eq. lia.
      * simpl in Ha.
        assert (Na : a <> y).
        { apply nth_error_In in Ha. apply In_unique_from in Ha.
          intros ->. simpl in Ha. tauto. }
        rewrite (first_index_cons_neq a y l Na).
        apply -> Nat.succ_lt_mono.
        apply (IH (y :: seen) i j a b); [lia | exact Ha | exact Hb].
Qed.

End Unique.

Lemma In_water_types_of d wt :
  In wt (water_types_of d) <-> In wt (map water_body_type d).
Proof. apply In_unique. apply String.eqb_eq. Qed.

Lemma NoDup_water_types_of d : NoDup (water_types_of d).
Proof. apply NoDup_unique. apply String.eqb_eq. Qed.

Lemma In_habitat_subset d wt o :
  In o (habitat_subset d wt) <-> In o d /\ water_body_type o = wt.
Proof.
  unfold habitat_subset. rewrite filter_In, String.eqb_eq. tauto.
Qed.

(** A label taken from the data selects at least one row. *)
Lemma habitat_subset_nonempty d wt :
  In wt (water_types_of d) -> (0 < len (habitat_subset d wt))%Z.
Proof.
  intro H. apply In_water_types_of, in_map_iff in H.
  destruct H as [o [E Ho]].
  assert (Hin : In o (habitat_subset d wt)) by now apply In_habitat_subset.
  unfold len. destruct (habitat_subset d wt); [contradiction|simpl; lia].
Qed.

Lemma water_types_of_nonempty d : d <> [] -> water_types_of d <> [].
Proof.
  destruct d as [|o d]; [congruence|]. intros _ H.
  assert (Hin : In (water_body_type o) (water_types_of (o :: d))).
  { apply In_water_types_of. simpl. auto. }
  rewrite H in Hin. contradiction.
Qed.

Lemma Zsum_cons x l : Zsum (x :: l) = (x + Zsum l)%Z.
Proof. reflexivity. Qed.

Lemma Zsum_app l m : Zsum (l ++ m) = (Zsum l + Zsum m)%Z.
Proof. induction l as [|x l IH]; simpl; [reflexivity|]. rewrite IH. lia. Qed.

Lemma Zsum_nonneg l : Forall (fun x => (0 <= x)%Z) l -> (0 <= Zsum l)%Z.
Proof. induction 1; simpl; lia. Qed.

Lemma Zsum_ge_member l x :
  Forall (fun y => (0 <= y)%Z) l -> In x l -> (x <= Zsum l)%Z.
Proof.
  induction 1 as [|y l Hy Hl IH]; simpl; [contradiction|].
  pose proof (Zsum_nonneg l Hl). intros [->|Hin]; [lia|].
  specialize (IH Hin). lia.
Qed.

Lemma Zsum_indicator (x : string) (v : Z) ws :
  NoDup ws ->
  Zsum (map (fun w => if String.eqb x w then v else 0%Z) ws)
  = if in_dec string_dec x ws then v else 0%Z.
Proof.
  induction 1 as [|w ws Hw Hnd IH]; simpl; [reflexivity|].
  rewrite IH. destruct (String.eqb_spec x w) as [->|Hne].
  - destruct (string_dec w w); [|congruence].
    destruct (in_dec string_dec w ws); [contradiction|lia].
  - destruct (string_dec w x); [congruence|].
    destruct (in_dec string_dec x ws); lia.
Qed.

(** Summing a column habitat by habitat gives the sum of the column. *)
Lemma Zsum_by_habitat (f : Observation -> Z) ws :
  NoDup ws ->
  forall d,
    (forall o, In o d -> In (water_body_type o) ws) ->
    Zsum (map (fun w => Zsum (map f (habitat_subset d w))) ws)
    = Zsum (map f d).
Proof.
  intros Hnd. induction d as [|o d IH]; intro Hin.
  - simpl. induction ws as [|w ws IHw]; simpl; [reflexivity|].
    inversion Hnd; subst. now rewrite IHw.
  - assert (Hstep :
      Zsum (map (fun w => Zsum (map f (habitat_subset (o :: d) w))) ws)
      = (Zsum (map (fun w => if String.eqb (water_body_type o) w
                             then f o else 0%Z) ws)
         + Zsum (map (fun w => Zsum (map f (habitat_subset d w))) ws))%Z).
    { clear. induction ws as [|w ws IHw]; [reflexivity|].
      rewrite !map_cons, !Zsum_cons, IHw. unfold habitat_subset. simpl.
      destruct (String.eqb (water_body_type o) w); simpl; lia. }
    rewrite Hstep, (Zsum_indicator _ _ _ Hnd), IH.
    + destruct (in_dec string_dec (water_body_type o) ws) as [_|Hn].
      * reflexivity.
      * exfalso. apply Hn, Hin. simpl. auto.
    + intros o' Ho'. apply Hin. simpl. auto.
Qed.

Lemma Zsum_binary_count s d :
  Forall (fun o => binary (present s o)) d ->
  Zsum (map (present s) d) = presence_count s d.
Proof.
  unfold presence_count, len.
  induction 1 as [|o d Ho Hd IH]; simpl; [reflexivity|].
  rewrite IH. destruct Ho as [-> | ->]; cbn [Z.eqb Pos.eqb List.length]; lia.
Qed.

Lemma presence_count_bounds s d :
  (0 <= presence_count s d <= len d)%Z.
Proof.
  unfold presence_count, len. split; [lia|].
  apply inj_le, filter_length_le.
Qed.

Lemma binary_presence_subset d wt :
  binary_presence d -> binary_presence (habitat_subset d wt).
Proof.
  unfold binary_presence. rewrite !Forall_forall. intros H o Ho.
  apply H. now apply In_habitat_subset in Ho.
Qed.

Lemma Qsum_map_ext {A : Type} (f g : A -> Q) l :
  (forall x, In x l -> f x == g x) -> Qsum (map f l) == Qsum (map g l).
Proof.
  induction l as [|x l IH]; intro H; simpl; [reflexivity|].
  apply Qplus_comp.
  - apply H. simpl. auto.
  - apply IH. intros y Hy. apply H. simpl. auto.
Qed.

Lemma Qsum_inject l : Qsum (map inject_Z l) == inject_Z (Zsum l).
Proof.
  induction l as [|x l IH]; simpl; [reflexivity|].
  now rewrite IH, inject_Z_plus.
Qed.

(** A count over a positive number of rows is a percentage in [0, 100]. *)
Lemma rate_percent_range a n :
  (0 <= a <= n)%Z -> (0 < n)%Z ->
  0 <= rate_percent a n /\ rate_percent a n <= 100.
Proof.
  intros [Ha Han] Hn. unfold rate_percent.
  assert (Hn' : 0 < inject_Z n).
  { change 0 with (inject_Z 0). rewrite <- Zlt_Qlt. exact Hn. }
  assert (H0 : 0 <= inject_Z a / inject_Z n).
  { apply Qle_shift_div_l; [exact Hn'|]. rewrite Qmult_0_l.
    change 0 with (inject_Z 0). rewrite <- Zle_Qle. exact Ha. }
  assert (H1 : inject_Z a / inject_Z n <= 1).
  { apply Qle_shift_div_r; [exact Hn'|]. rewrite Qmult_1_l.
    rewrite <- Zle_Qle. exact Han. }
  split; lra.
Qed.

End FrameFacts.

(** ** Stage 2: occurrence rates and the summary *)

Module AnalyzerFacts.

Import Frame Vocabulary Analyzer FrameFacts.

(** The rows of one species, as [summarize_findings] selects them: one per
    water type, in the iteration order of [calculate_occurrence_rates]. *)
Lemma rows_of_species d s :
  filter (fun r => Species_eqb (occ_species r) s)
         (calculate_occurrence_rates d)
  = map (fun wt => occurrence_row d wt s) (water_types_of d).
Proof.
  unfold calculate_occurrence_rates.
  induction (water_types_of d) as [|wt wts IH]; [reflexivity|].
  cbn [flat_map]. rewrite filter_app, IH. destruct s; reflexivity.
Qed.

Lemma In_calculate_occurrence_rates d r :
  In r (calculate_occurrence_rates d) <->
  exists wt s, In wt (water_types_of d) /\ r = occurrence_row d wt s.
Proof.
  unfold calculate_occurrence_rates. rewrite in_flat_map. split.
  - intros [wt [Hwt Hr]]. apply in_map_iff in Hr.
    destruct Hr as [s [<- _]]. eauto.
  - intros [wt [s [Hwt ->]]]. exists wt. split; [exact Hwt|].
    apply in_map. destruct s; simpl; auto.
Qed.

(** C6. On a Dataset with 0/1 presence indicators, every row of
    [calculate_occurrence_rates] has a non-zero observation count (and
    every species and habitat type of the data has a row), its rate is
    (presence count / per-habitat observation count) x 100 and lies in
    [0, 100], and for each species the raw occurrence counts of all habitat
    types add up to the species' presence count over the whole Dataset. *)
Theorem occurrence_rates_correct d :
  binary_presence d ->
  (forall s o, In o d ->
     In (occurrence_row d (water_body_type o) s)
        (calculate_occurrence_rates d))
  /\ (forall r, In r (calculate_occurrence_rates d) ->
        (0 < n_observations r)%Z
        /\ n_observations r = len (habitat_subset d (occ_water_body_type r))
        /\ occurrences r
           = presence_count (occ_species r)
                            (habitat_subset d (occ_water_body_type r))
        /\ occurrence_rate r
           = (inject_Z (occurrences r) / inject_Z (n_observations r)) * 100
        /\ occurrence_rate r
           = occurrence_percentage (occ_species r) d (occ_water_body_type r)
        /\ 0 <= occurrence_rate r /\ occurrence_rate r <= 100)
  /\ (forall s,
        Zsum (map occurrences
                  (filter (fun r => Species_eqb (occ_species r) s)
                          (calculate_occurrence_rates d)))
        = presence_count s d).
Proof.
  intro Hbin. split; [|split].
  - intros s o Ho. apply In_calculate_occurrence_rates.
    exists (water_body_type o), s. split; [|reflexivity].
    apply In_water_types_of. now apply in_map.
  - intros r Hr. apply In_calculate_occurrence_rates in Hr.
    destruct Hr as [wt [s [Hwt ->]]]. cbn.
    pose proof (habitat_subset_nonempty d wt Hwt) as Hpos.
    assert (Hcount : Zsum (map (present s) (habitat_subset d wt))
                     = presence_count s (habitat_subset d wt)).
    { apply Zsum_binary_count.
      pose proof (binary_presence_subset d wt Hbin) as Hs.
      unfold binary_presence in Hs. rewrite Forall_forall in *.
      intros o Ho. now apply Hs. }
    repeat split; try assumption; try reflexivity.
    + unfold occurrence_percentage. now rewrite Hcount.
    + rewrite Hcount. apply rate_percent_range; [|exact Hpos].
      apply presence_count_bounds.
    + rewrite Hcount. apply rate_percent_range; [|exact Hpos].
      apply presence_count_bounds.
  - intro s. rewrite rows_of_species, map_map. cbn.
    rewrite (Zsum_by_habitat (present s) (water_types_of d)
               (NoDup_water_types_of d) d).
    + apply Zsum_binary_count. unfold binary_presence in Hbin.
      rewrite Forall_forall in *. intros o Ho. now apply Hbin.
    + intros o Ho. apply In_water_types_of. now apply in_map.
Qed.

Lemma nine_rows_binary : binary_presence Sample.nine_rows.
Proof.
  unfold binary_presence, Sample.nine_rows.
  repeat (apply Forall_cons; [intros []; cbv; auto|]). apply Forall_nil.
Defined.

Lemma occurrence_rates_correct_witness :
  binary_presence Sample.nine_rows
  /\ (forall r, In r (calculate_occurrence_rates Sample.nine_rows) ->
        0 <= occurrence_rate r /\ occurrence_rate r <= 100)
  /\ (forall s,
        Zsum (map occurrences
                  (filter (fun r => Species_eqb (occ_species r) s)
                          (calculate_occurrence_rates Sample.nine_rows)))
        = presence_count s Sample.nine_rows).
Proof.
  split; [exact nine_rows_binary|].
  destruct (occurrence_rates_correct Sample.nine_rows nine_rows_binary)
    as [_ [Hrows Hsum]].
  split; [|exact Hsum].
  intros r Hr. destruct (Hrows r Hr) as [_ [_ [_ [_ [_ Hrange]]]]].
  exact Hrange.
Defined.

(** The loop of [max]: the result is the first element with the greatest
    key. *)
Lemma fold_best_spec {A : Type} (key : A -> Q) :
  forall xs pre best i,
    nth_error pre i = Some best ->
    (forall y, In y pre -> key y <= key best) ->
    (forall j y, (j < i)%nat -> nth_error pre j = Some y ->
                 key y < key best) ->
    exists i',
      nth_error (pre ++ xs) i'
      = Some (fold_left
                (fun best y => if Qltb (key best) (key y) then y else best)
                xs best)
      /\ (forall y, In y (pre ++ xs) ->
            key y <= key (fold_left
                (fun best y => if Qltb (key best) (key y) then y else best)
                xs best))
      /\ (forall j y, (j < i')%nat -> nth_error (pre ++ xs) j = Some y ->
            key y < key (fold_left
                (fun best y => if Qltb (key best) (key y) then y else best)
                xs best)).
Proof.
  induction xs as [|x xs IH]; intros pre best i Hi Hmax Hfirst.
  - exists i. rewrite app_nil_r. simpl. auto.
  - assert (Hlen : (i < List.length pre)%nat).
    { apply nth_error_Some. congruence. }
    cbn [fold_left]. replace (pre ++ x :: xs) with ((pre ++ [x]) ++ xs)
      by (rewrite <- app_assoc; reflexivity).
    destruct (Qltb (key best) (key x)) eqn:E.
    + apply Qltb_lt in E.
      apply (IH (pre ++ [x]) x (List.length pre)).
      * rewrite nth_error_app2, Nat.sub_diag by lia. reflexivity.
      * intros y Hy. apply in_app_or in Hy. destruct Hy as [Hy|[<-|[]]].
        -- specialize (Hmax y Hy). lra.
        -- lra.
      * intros j y Hj Hy. rewrite nth_error_app1 in Hy by exact Hj.
        apply nth_error_In in Hy. specialize (Hmax y Hy). lra.
    + apply Qltb_ge in E.
      apply (IH (pre ++ [x]) best i).
      * rewrite nth_error_app1 by exact Hlen. exact Hi.
      * intros y Hy. apply in_app_or in Hy. destruct Hy as [Hy|[<-|[]]].
        -- now apply Hmax.
        -- exact E.
      * intros j y Hj Hy. rewrite nth_error_app1 in Hy by lia.
        now apply (Hfirst j).
Qed.

Lemma py_max_spec {A : Type} (key : A -> Q) (l : list A) :
  l <> [] ->
  exists i x,
    py_max key l = Some x
    /\ nth_error l i = Some x
    /\ (forall y, In y l -> key y <= key x)
    /\ (forall j y, (j < i)%nat -> nth_error l j = Some y -> key y < key x).
Proof.
  destruct l as [|x xs]; [congruence|]. intros _.
  destruct (fold_best_spec key xs [x] x 0) as [i [Hi [Hmax Hfirst]]].
  - reflexivity.
  - intros y [<-|[]]. apply Qle_refl.
  - intros j y Hj. lia.
  - exists i. eexists. split; [reflexivity|]. auto.
Qed.

Lemma water_types_first_appearance d :
  first_appearance_order d (water_types_of d).
Proof.
  split; [apply NoDup_water_types_of|]. split.
  - intro wt. apply In_water_types_of.
  - intros i j a b Hij Ha Hb.
    apply (unique_from_first_appearance String.eqb String.eqb_eq
             (map water_body_type d) [] i j a b Hij Ha Hb).
Qed.

Lemma summarize_species_spec d s :
  d <> [] ->
  exists row,
    summarize_species (calculate_occurrence_rates d) s = Some row
    /\ first_maximum d s row.
Proof.
  intro Hd. unfold summarize_species. rewrite rows_of_species.
  pose proof (water_types_of_nonempty d Hd) as Hne.
  destruct (py_max_spec occurrence_rate
              (map (fun wt => occurrence_row d wt s) (water_types_of d)))
    as [i [x [E [Hi [Hmax Hfirst]]]]].
  { destruct (water_types_of d); [congruence|discriminate]. }
  rewrite E. eexists. split; [reflexivity|].
  rewrite nth_error_map in Hi.
  destruct (nth_error (water_types_of d) i) as [wt|] eqn:Ewt;
    [|discriminate].
  injection Hi as <-. exists i. cbn. split; [exact Ewt|].
  split; [reflexivity|]. split.
  - intros wt' Hwt'. apply (Hmax (occurrence_row d wt' s)).
    apply in_map_iff. exists wt'. auto.
  - intros j wt' Hj Hwt'. apply (Hfirst j (occurrence_row d wt' s) Hj).
    rewrite nth_error_map, Hwt'. reflexivity.
Qed.

(** C3. On a Dataset with at least one row [summarize_findings] returns one
    entry per species; its [preferred_habitat] has the maximum occurrence
    rate of the species and, among the water types that reach the maximum,
    is the first in the iteration order of [calculate_occurrence_rates],
    which is the order of first appearance of the water types in the
    Dataset. *)
Theorem preferred_habitat_first_maximum d :
  d <> [] ->
  exists summary,
    summarize_findings d = Some summary
    /\ map fst summary = species
    /\ (forall s row, In (s, row) summary -> first_maximum d s row)
    /\ first_appearance_order d (water_types_of d).
Proof.
  intro Hd. unfold summarize_findings, species. cbn [summarize_loop].
  destruct (summarize_species_spec d RGS Hd) as [r1 [E1 M1]].
  destruct (summarize_species_spec d RES Hd) as [r2 [E2 M2]].
  destruct (summarize_species_spec d PH Hd) as [r3 [E3 M3]].
  rewrite E1, E2, E3. eexists. split; [reflexivity|].
  split; [reflexivity|]. split.
  - intros s row [H|[H|[H|[]]]]; injection H as <- <-; assumption.
  - apply water_types_first_appearance.
Qed.

Lemma preferred_habitat_first_maximum_witness :
  Sample.nine_rows <> []
  /\ exists summary,
       summarize_findings Sample.nine_rows = Some summary
       /\ map fst summary = species
       /\ (forall s row, In (s, row) summary ->
             first_maximum Sample.nine_rows s row)
       /\ first_appearance_order Sample.nine_rows
            (water_types_of Sample.nine_rows).
Proof.
  assert (Hne : Sample.nine_rows <> []) by discriminate.
  split; [exact Hne|].
  exact (preferred_habitat_first_maximum Sample.nine_rows Hne).
Defined.

(** The scenario of the specification: RGS is seen in "A" only, and "A" is
    its preferred habitat with a rate of 100 percent. *)
Example nine_rows_RGS_prefers_A :
  option_map (map (fun e => (fst e, preferred_habitat (snd e),
                             Qred (preference_rate (snd e)))))
             (summarize_findings Sample.nine_rows)
  = Some [(RGS, "A", 100); (RES, "A", 0); (PH, "C", 100)].
Proof. reflexivity. Qed.

(** On an empty Dataset [max] has nothing to choose from. *)
Lemma summarize_findings_empty : summarize_findings [] = None.
Proof. reflexivity. Qed.

End AnalyzerFacts.

(** ** Stage 2: descriptive statistics *)

Module StatisticsFacts.

Import Frame Vocabulary Analyzer FrameFacts.

Section WithSqrt.

Variable np_sqrt : Q -> Q.

Lemma series_described xs :
  xs <> [] ->
  described_by np_sqrt xs (series_mean xs) (series_std np_sqrt xs).
Proof.
  intro Hne. unfold described_by. split; [|split].
  - destruct xs as [|x xs]; [congruence|].
    eexists. split; [reflexivity|]. reflexivity.
  - intro H1. unfold series_std, nanvar, len. rewrite H1. reflexivity.
  - intro H2. unfold series_std, nanvar.
    destruct (Z.leb_spec (len xs) 1) as [Hle|Hgt].
    { unfold len in Hle. lia. }
    eexists. split; [reflexivity|]. unfold unbiased_variance, sample_mean.
    apply Qmult_comp; [|reflexivity].
    apply Qsum_map_ext. intros x _. ring.
Qed.

(** The statistics of one entry of [habitat_similarity]. *)
Lemma habitat_stats_described d wt :
  In wt (water_types_of d) ->
  let rows := habitat_subset d wt in
  let st := habitat_stats np_sqrt d wt in
  rows <> []
  /\ described_by np_sqrt (map salinity_ppt rows)
                  (salinity_mean st) (salinity_std st)
  /\ described_by np_sqrt (map pH rows) (pH_mean st) (pH_std st)
  /\ described_by np_sqrt (map temperature_C rows)
                  (temperature_mean st) (temperature_std st)
  /\ described_by np_sqrt (map dissolved_oxygen_mg_L rows)
                  (dissolved_oxygen_mean st) (dissolved_oxygen_std st).
Proof.
  intros Hw rows st.
  assert (Hne : rows <> []).
  { pose proof (habitat_subset_nonempty d wt Hw) as Hpos. subst rows.
    intro H0. rewrite H0 in Hpos. discriminate. }
  assert (Hmap : forall f : Observation -> Q, map f rows <> []).
  { intros f H0. apply map_eq_nil in H0. contradiction. }
  split; [exact Hne|]. cbn. repeat split; apply series_described, Hmap.
Qed.

(** C7. [habitat_similarity] has exactly one entry per habitat type of the
    Dataset, in the order of first appearance: every water type that
    labels a row has an entry and no other key has one.  For each of the
    four covariates the entry reports the sample mean of the habitat's
    rows and the standard deviation with the n-1 divisor; on a habitat with
    exactly one row the standard deviation is NaN. *)
Theorem habitat_statistics_unbiased d :
  map fst (habitat_similarity np_sqrt d) = water_types_of d
  /\ first_appearance_order d (map fst (habitat_similarity np_sqrt d))
  /\ (forall o, In o d ->
        exists st,
          In (water_body_type o, st) (habitat_similarity np_sqrt d))
  /\ (forall wt st,
        In (wt, st) (habitat_similarity np_sqrt d) ->
        let rows := habitat_subset d wt in
        rows <> []
        /\ described_by np_sqrt (map salinity_ppt rows)
                        (salinity_mean st) (salinity_std st)
        /\ described_by np_sqrt (map pH rows) (pH_mean st) (pH_std st)
        /\ described_by np_sqrt (map temperature_C rows)
                        (temperature_mean st) (temperature_std st)
        /\ described_by np_sqrt (map dissolved_oxygen_mg_L rows)
                        (dissolved_oxygen_mean st)
                        (dissolved_oxygen_std st)).
Proof.
  assert (Hkeys : map fst (habitat_similarity np_sqrt d) = water_types_of d).
  { unfold habitat_similarity. rewrite map_map. apply map_id. }
  split; [exact Hkeys|]. split; [|split].
  - rewrite Hkeys. apply AnalyzerFacts.water_types_first_appearance.
  - intros o Ho. exists (habitat_stats np_sqrt d (water_body_type o)).
    unfold habitat_similarity. apply in_map_iff.
    exists (water_body_type o). split; [reflexivity|].
    apply In_water_types_of. now apply in_map.
  - intros wt st Hin. unfold habitat_similarity in Hin.
    apply in_map_iff in Hin. destruct Hin as [w [E Hw]].
    injection E as -> <-. now apply habitat_stats_described.
Qed.

End WithSqrt.

Lemma habitat_statistics_unbiased_witness :
  In ("A", habitat_stats Sample.sqrt_down Sample.lone_row "A")
     (habitat_similarity Sample.sqrt_down Sample.lone_row)
  /\ salinity_std (habitat_stats Sample.sqrt_down Sample.lone_row "A") = NaN
  /\ described_by Sample.sqrt_down
       (map salinity_ppt (habitat_subset Sample.lone_row "A"))
       (salinity_mean (habitat_stats Sample.sqrt_down Sample.lone_row "A"))
       (salinity_std (habitat_stats Sample.sqrt_down Sample.lone_row "A")).
Proof.
  assert (Hin : In ("A", habitat_stats Sample.sqrt_down Sample.lone_row "A")
                   (habitat_similarity Sample.sqrt_down Sample.lone_row)).
  { simpl. auto. }
  split; [exact Hin|]. split; [reflexivity|].
  exact (proj1 (proj2 (proj2 (proj2 (proj2 (habitat_statistics_unbiased
                         Sample.sqrt_down Sample.lone_row))) "A" _ Hin))).
Defined.

End StatisticsFacts.

(** ** Stage 3: the renderer against the analyzer *)

Module RendererFacts.

Import Frame Vocabulary Analyzer Renderer FrameFacts AnalyzerFacts.

Lemma bars_of_species d s ws :
  filter (fun r => Species_eqb (bar_species r) s)
         (flat_map (fun wt => map (fun s' => bar_of d s' wt) species) ws)
  = map (bar_of d s) ws.
Proof.
  induction ws as [|wt ws IH]; [reflexivity|].
  cbn [flat_map]. rewrite filter_app, IH. destruct s; reflexivity.
Qed.

Lemma first_bar_of d s wt ws :
  In wt ws ->
  exists rest,
    filter (fun r => String.eqb (bar_water_body_type r) wt)
           (map (bar_of d s) ws)
    = bar_of d s wt :: rest.
Proof.
  induction ws as [|w ws IH]; [contradiction|]. intro Hin. cbn.
  destruct (String.eqb_spec w wt) as [->|Hne].
  - eexists. reflexivity.
  - destruct Hin as [->|Hin]; [congruence|]. now apply IH.
Qed.

Lemma rates_of_spec d s all :
  forall ws,
    incl ws all ->
    rates_of (map (bar_of d s) all) ws
    = inr (map (fun wt => subset_rate (habitat_subset d wt) s) ws).
Proof.
  induction ws as [|wt ws IH]; intro Hincl; [reflexivity|].
  cbn [rates_of].
  destruct (first_bar_of d s wt all) as [rest Hrest].
  { apply Hincl. simpl. auto. }
  rewrite Hrest, IH; [reflexivity|].
  intros w Hw. apply Hincl. simpl. auto.
Qed.

Lemma occurrence_data_bars d :
  occurrence_data d
  = flat_map (fun wt => map (fun s' => bar_of d s' wt) species)
             (water_types_of d).
Proof. reflexivity. Qed.

Lemma occurrence_data_nonempty d : d <> [] -> occurrence_data d <> [].
Proof.
  intro Hd. pose proof (water_types_of_nonempty d Hd) as Hw.
  unfold occurrence_data. destruct (water_types_of d); [congruence|].
  discriminate.
Qed.

(** The bars of one species on a Dataset with at least one row. *)
Lemma bar_rates_spec d s :
  d <> [] ->
  bar_rates (occurrence_data d) s (water_types_of d)
  = inr (map (fun wt => subset_rate (habitat_subset d wt) s)
             (water_types_of d)).
Proof.
  intro Hd. pose proof (occurrence_data_nonempty d Hd) as Hne.
  unfold bar_rates. destruct (occurrence_data d) as [|b bs] eqn:E;
    [congruence|].
  rewrite <- E, occurrence_data_bars, bars_of_species.
  apply rates_of_spec, incl_refl.
Qed.

(** The whole bar chart: KeyError on the Dataset without rows, the rates
    of every species otherwise. *)
Lemma plot_occurrence_by_habitat_spec d :
  (d = [] -> plot_occurrence_by_habitat d = inl (KeyError "Species"))
  /\ (d <> [] ->
      plot_occurrence_by_habitat d
      = inr (map (fun s =>
                    map (fun wt => subset_rate (habitat_subset d wt) s)
                        (water_types_of d))
                 species)).
Proof.
  split.
  - intros ->. reflexivity.
  - intro Hd. unfold plot_occurrence_by_habitat, species.
    cbn [bars_loop map]. now rewrite !bar_rates_spec.
Qed.

(** C9. The rates the renderer recomputes are the analyzer's: the frame
    behind the grouped bar chart has the rows of
    [calculate_occurrence_rates] (same water type, species and rate, same
    order); on a Dataset with at least one row the bars of each species
    are the analyzer's rates of that species; and the heatmap holds the
    analyzer's rates row by row.  On the Dataset without rows there is no
    rate to compare: the analyzer returns no record and the bar chart
    raises KeyError on its column-less frame. *)
Theorem renderer_rates_agree d :
  map (fun b => (bar_water_body_type b, bar_species b, bar_occurrence_rate b))
      (occurrence_data d)
  = map (fun r => (occ_water_body_type r, occ_species r, occurrence_rate r))
        (calculate_occurrence_rates d)
  /\ (d <> [] ->
      plot_occurrence_by_habitat d
      = inr (map (fun s =>
                    map occurrence_rate
                        (filter (fun r => Species_eqb (occ_species r) s)
                                (calculate_occurrence_rates d)))
                 species))
  /\ (d = [] ->
      plot_occurrence_by_habitat d = inl (KeyError "Species")
      /\ calculate_occurrence_rates d = [])
  /\ plot_heatmap d
     = map (fun wt => map (fun s => occurrence_rate (occurrence_row d wt s))
                          species)
           (water_types_of d)
  /\ List.concat (plot_heatmap d)
     = map occurrence_rate (calculate_occurrence_rates d).
Proof.
  split; [|split; [|split; [|split]]].
  - unfold occurrence_data, calculate_occurrence_rates.
    induction (water_types_of d) as [|wt wts IH]; [reflexivity|].
    cbn [flat_map]. rewrite !map_app, IH. reflexivity.
  - intro Hd.
    rewrite (proj2 (plot_occurrence_by_habitat_spec d) Hd). f_equal.
    unfold species. cbn [map].
    rewrite !rows_of_species, !map_map. reflexivity.
  - intros ->. split; reflexivity.
  - reflexivity.
  - unfold plot_heatmap, calculate_occurrence_rates.
    induction (water_types_of d) as [|wt wts IH]; [reflexivity|].
    cbn [map List.concat flat_map]. rewrite map_app, IH. reflexivity.
Qed.

Lemma renderer_rates_agree_witness :
  Sample.nine_rows <> []
  /\ plot_occurrence_by_habitat Sample.nine_rows
     = inr (map (fun s =>
                   map occurrence_rate
                       (filter (fun r => Species_eqb (occ_species r) s)
                               (calculate_occurrence_rates Sample.nine_rows)))
                species).
Proof.
  assert (Hd : Sample.nine_rows <> []) by discriminate.
  split; [exact Hd|].
  exact (proj1 (proj2 (renderer_rates_agree Sample.nine_rows)) Hd).
Defined.

End RendererFacts.

(** ** Stage 2: the independence test *)

Module ContingencyFacts.

Import Frame Vocabulary Analyzer FrameFacts.

Section Sorting.

Context {A : Type} (leb : A -> A -> bool).

Lemma In_insert_sorted x y l :
  In y (insert_sorted leb x l) <-> y = x \/ In y l.
Proof.
  induction l as [|z l IH]; simpl; [intuition congruence|].
  destruct (leb x z); simpl; [intuition congruence|].
  rewrite IH. intuition congruence.
Qed.

Lemma In_sorted y l : In y (sorted leb l) <-> In y l.
Proof.
  unfold sorted. induction l as [|x l IH]; simpl; [tauto|].
  rewrite In_insert_sorted, IH. intuition congruence.
Qed.

Lemma length_insert_sorted x l :
  List.length (insert_sorted leb x l) = S (List.length l).
Proof.
  induction l as [|z l IH]; simpl; [reflexivity|].
  destruct (leb x z); simpl; [reflexivity|]. now rewrite IH.
Qed.

Lemma length_sorted l : List.length (sorted leb l) = List.length l.
Proof.
  unfold sorted. induction l as [|x l IH]; simpl; [reflexivity|].
  now rewrite length_insert_sorted, IH.
Qed.

End Sorting.

Lemma existsb2_false {A : Type} (P : A -> Prop) (f : A -> bool) ll :
  (forall x, P x -> f x = false) ->
  Forall (Forall P) ll -> existsb (existsb f) ll = false.
Proof.
  intros Hf Hll. destruct (existsb (existsb f) ll) eqn:E; [|reflexivity].
  apply existsb_exists in E. destruct E as [l [Hl E]].
  apply existsb_exists in E. destruct E as [x [Hx E]].
  rewrite Forall_forall in Hll. specialize (Hll l Hl).
  rewrite Forall_forall in Hll. rewrite (Hf x (Hll x Hx)) in E.
  discriminate.
Qed.

Lemma has_row (d : Dataset) : d <> [] -> exists o, In o d.
Proof. destruct d as [|o d]; [congruence|]. exists o. simpl. auto. Qed.

(** The cells of a cross-tabulation. *)
Section Crosstab.

Variable d : Dataset.
Variable s : Species.

Local Abbreviation index := (ct_index (crosstab d s)).
Local Abbreviation columns := (ct_columns (crosstab d s)).
Local Abbreviation values := (ct_values (crosstab d s)).

Lemma In_index r : In r index <-> In r (map water_body_type d).
Proof.
  unfold crosstab. cbn. rewrite In_sorted. apply In_water_types_of.
Qed.

Lemma In_columns c : In c columns <-> In c (map (present s) d).
Proof.
  unfold crosstab. cbn. rewrite In_sorted.
  apply In_unique. apply Z.eqb_eq.
Qed.

Lemma values_rows :
  values = map (fun r => map (crosstab_cell d s r) columns) index.
Proof. reflexivity. Qed.

Lemma cell_nonneg r c : (0 <= crosstab_cell d s r c)%Z.
Proof. unfold crosstab_cell, len. lia. Qed.

Lemma cell_pos o :
  In o d -> (1 <= crosstab_cell d s (water_body_type o) (present s o))%Z.
Proof.
  intro Ho. unfold crosstab_cell, len.
  set (f := fun o' => String.eqb (water_body_type o') (water_body_type o)
                      && Z.eqb (present s o') (present s o)).
  assert (Hin : In o (filter f d)).
  { apply filter_In. split; [exact Ho|]. unfold f.
    now rewrite String.eqb_refl, Z.eqb_refl. }
  destruct (filter f d); [contradiction|]. simpl. lia.
Qed.

Lemma row_nonneg r :
  Forall (fun x => (0 <= x)%Z) (map (crosstab_cell d s r) columns).
Proof.
  apply Forall_forall. intros x Hx. apply in_map_iff in Hx.
  destruct Hx as [c [<- _]]. apply cell_nonneg.
Qed.

Lemma values_nonneg : Forall (Forall (fun x => (0 <= x)%Z)) values.
Proof.
  rewrite values_rows. apply Forall_forall. intros row Hrow.
  apply in_map_iff in Hrow. destruct Hrow as [r [<- _]]. apply row_nonneg.
Qed.

Lemma row_sum_pos r :
  In r index -> (1 <= Zsum (map (crosstab_cell d s r) columns))%Z.
Proof.
  intro Hr. apply In_index, in_map_iff in Hr. destruct Hr as [o [<- Ho]].
  pose proof (cell_pos o Ho) as Hpos.
  assert (Hc : In (present s o) columns).
  { apply In_columns. now apply in_map. }
  pose proof (Zsum_ge_member _ _ (row_nonneg (water_body_type o))
                (in_map (crosstab_cell d s (water_body_type o)) _ _ Hc)).
  lia.
Qed.

Lemma row_sums_pos : Forall (fun x => (1 <= x)%Z) (row_sums values).
Proof.
  unfold row_sums. rewrite values_rows, map_map. apply Forall_forall.
  intros x Hx. apply in_map_iff in Hx. destruct Hx as [r [<- Hr]].
  now apply row_sum_pos.
Qed.

Lemma col_sum_pos j :
  (j < List.length columns)%nat ->
  (1 <= Zsum (map (fun row => nth j row 0%Z) values))%Z.
Proof.
  intro Hj.
  assert (Hc : In (nth j columns 0%Z) columns) by now apply nth_In.
  apply In_columns, in_map_iff in Hc. destruct Hc as [o [Eo Ho]].
  assert (Hr : In (water_body_type o) index).
  { apply In_index. now apply in_map. }
  assert (Hnth : forall r,
            nth j (map (crosstab_cell d s r) columns) 0%Z
            = crosstab_cell d s r (nth j columns 0%Z)).
  { intro r.
    rewrite (nth_indep _ 0%Z (crosstab_cell d s r 0%Z))
      by (rewrite length_map; exact Hj).
    apply map_nth. }
  assert (Hall : Forall (fun x => (0 <= x)%Z)
                        (map (fun row => nth j row 0%Z) values)).
  { rewrite values_rows, map_map. apply Forall_forall. intros x Hx.
    apply in_map_iff in Hx. destruct Hx as [r [<- _]]. rewrite Hnth.
    apply cell_nonneg. }
  assert (Hmem : In (crosstab_cell d s (water_body_type o) (present s o))
                    (map (fun row => nth j row 0%Z) values)).
  { rewrite values_rows, map_map. apply in_map_iff.
    exists (water_body_type o). split; [|exact Hr]. rewrite Hnth.
    now rewrite <- Eo. }
  pose proof (Zsum_ge_member _ _ Hall Hmem).
  pose proof (cell_pos o Ho). lia.
Qed.

Lemma col_sums_pos :
  Forall (fun x => (1 <= x)%Z) (col_sums (List.length columns) values).
Proof.
  unfold col_sums. apply Forall_forall. intros x Hx.
  apply in_map_iff in Hx. destruct Hx as [j [<- Hj]].
  apply in_seq in Hj. apply col_sum_pos. lia.
Qed.

Hypothesis nonempty : d <> [].

Lemma index_nonempty : index <> [].
Proof.
  destruct (has_row d nonempty) as [o Ho]. intro H.
  assert (Hin : In (water_body_type o) index).
  { apply In_index. now apply in_map. }
  rewrite H in Hin. contradiction.
Qed.

Lemma columns_nonempty : columns <> [].
Proof.
  destruct (has_row d nonempty) as [o Ho]. intro H.
  assert (Hin : In (present s o) columns).
  { apply In_columns. now apply in_map. }
  rewrite H in Hin. contradiction.
Qed.

Lemma ncols_of_values : ncols_of values = List.length columns.
Proof.
  rewrite values_rows. pose proof index_nonempty as H.
  destruct index; [congruence|]. cbn. apply length_map.
Qed.

Lemma len_values : len values = len index.
Proof. rewrite values_rows. unfold len. now rewrite length_map. Qed.

Lemma total_pos : (1 <= total values)%Z.
Proof.
  unfold total. pose proof row_sums_pos as Hpos.
  assert (Hne : row_sums values <> []).
  { unfold row_sums. rewrite values_rows, map_map.
    pose proof index_nonempty as H. destruct index; [congruence|].
    discriminate. }
  destruct (row_sums values) as [|x l]; [congruence|].
  inversion Hpos as [|? ? Hx Hl]; subst. simpl.
  assert (0 <= Zsum l)%Z.
  { apply Zsum_nonneg. eapply Forall_impl; [|exact Hl].
    simpl. intros. lia. }
  unfold Zsum in *. lia.
Qed.

Lemma expected_pos :
  Forall (Forall (fun e => 0 < e)) (expected_freq values).
Proof.
  unfold expected_freq. rewrite ncols_of_values.
  pose proof row_sums_pos as Hr. pose proof col_sums_pos as Hc.
  pose proof total_pos as Ht.
  apply Forall_forall. intros row Hrow. apply in_map_iff in Hrow.
  destruct Hrow as [r [<- Hin]]. rewrite Forall_forall in Hr.
  specialize (Hr r Hin).
  apply Forall_forall. intros e He. apply in_map_iff in He.
  destruct He as [c [<- Hcin]]. rewrite Forall_forall in Hc.
  specialize (Hc c Hcin).
  apply Qlt_shift_div_l.
  - change 0 with (inject_Z 0). rewrite <- Zlt_Qlt. lia.
  - rewrite Qmult_0_l, <- inject_Z_mult. change 0 with (inject_Z 0).
    rewrite <- Zlt_Qlt. nia.
Qed.

End Crosstab.

Lemma Qsum_nonneg l : Forall (fun x => 0 <= x) l -> 0 <= Qsum l.
Proof.
  induction 1 as [|x l Hx Hl IH]; simpl; [apply Qle_refl|].
  change 0 with (0 + 0). now apply Qplus_le_compat.
Qed.

Lemma pearson_term_nonneg o e : 0 < e -> 0 <= (o - e) * (o - e) / e.
Proof.
  intro He. apply Qle_shift_div_l; [exact He|]. rewrite Qmult_0_l.
  destruct (Qlt_le_dec (o - e) 0) as [Hneg|Hpos].
  - setoid_replace ((o - e) * (o - e)) with ((- (o - e)) * (- (o - e)))
      by ring.
    apply Qmult_le_0_compat; lra.
  - now apply Qmult_le_0_compat.
Qed.

(** Pearson's statistic is a sum of non-negative terms. *)
Lemma pearson_nonneg observed expected :
  Forall (Forall (fun e => 0 < e)) expected -> 0 <= pearson observed expected.
Proof.
  intro Hexp. unfold pearson. apply Qsum_nonneg.
  revert observed. induction Hexp as [|es ess Hes Hess IH];
    intros [|os oss]; simpl; try constructor.
  - apply Qsum_nonneg. clear -Hes. revert os.
    induction Hes as [|e es He Hes IH]; intros [|o os]; simpl;
      constructor.
    + now apply pearson_term_nonneg.
    + apply IH.
  - apply IH.
Qed.

(** *** The tolerance test of [power_divergence] *)

Lemma nth_seq_map {A : Type} (d : A) l :
  map (fun j => nth j l d) (seq 0 (List.length l)) = l.
Proof.
  induction l as [|x l IH]; [reflexivity|].
  cbn [List.length seq map nth]. f_equal.
  rewrite <- seq_shift, map_map. exact IH.
Qed.

Lemma Zsum_map_add {A : Type} (f g : A -> Z) l :
  Zsum (map (fun x => (f x + g x)%Z) l)
  = (Zsum (map f l) + Zsum (map g l))%Z.
Proof. induction l as [|x l IH]; simpl; [reflexivity|]. rewrite IH. lia. Qed.

Lemma Zsum_map_zero {A : Type} (f : A -> Z) l :
  (forall x, f x = 0%Z) -> Zsum (map f l) = 0%Z.
Proof.
  intro H. induction l as [|x l IH]; [reflexivity|].
  cbn [map]. rewrite Zsum_cons, H, IH. reflexivity.
Qed.

(** In a rectangular table the column sums and the row sums have the same
    total. *)
Lemma col_sums_total n values :
  Forall (fun row => List.length row = n) values ->
  Zsum (col_sums n values) = total values.
Proof.
  unfold col_sums, total, row_sums.
  induction 1 as [|row values Hrow Hrect IH]; cbn [map].
  - apply Zsum_map_zero. reflexivity.
  - rewrite Zsum_cons, <- IH.
    rewrite (Zsum_map_add (fun j => nth j row 0%Z)
               (fun j => Zsum (map (fun r => nth j r 0%Z) values))).
    now rewrite <- Hrow, nth_seq_map.
Qed.

Lemma observed_sum values :
  Qsum (map Qsum (map (map inject_Z) values)) == inject_Z (total values).
Proof.
  unfold total, row_sums. rewrite map_map, <- Qsum_inject, map_map.
  apply Qsum_map_ext. intros row _. apply Qsum_inject.
Qed.

Lemma Qsum_scaled (k t : Q) l :
  Qsum (map (fun c => k * inject_Z c / t) l) == k * inject_Z (Zsum l) / t.
Proof.
  induction l as [|c l IH]; simpl.
  - unfold Qdiv. ring.
  - rewrite IH, inject_Z_plus. unfold Qdiv. ring.
Qed.

Lemma expected_row_sum (r cs1 cs2 t : Z) :
  (cs1 + cs2 = t)%Z -> (t <> 0)%Z ->
  inject_Z r * inject_Z cs1 / inject_Z t
  + inject_Z r * inject_Z cs2 / inject_Z t == inject_Z r.
Proof.
  intros <- Ht. rewrite inject_Z_plus in *.
  assert (Hne : ~ inject_Z cs1 + inject_Z cs2 == 0).
  { rewrite <- inject_Z_plus. change 0 with (inject_Z 0).
    rewrite inject_Z_injective. exact Ht. }
  field. exact Hne.
Qed.

Lemma Qsign_pos x : 0 < x -> Qsign x = 1.
Proof.
  unfold Qsign, Qlt. destruct x as [n p]. simpl. intro H.
  assert (0 < n)%Z by lia. destruct n; try lia. reflexivity.
Qed.

Lemma Qsign_neg x : x < 0 -> Qsign x = - (1).
Proof.
  unfold Qsign, Qlt. destruct x as [n p]. simpl. intro H.
  assert (n < 0)%Z by lia. destruct n; try lia. reflexivity.
Qed.

Lemma Qsign_zero x : x == 0 -> Qsign x = 0.
Proof.
  unfold Qsign, Qeq. destruct x as [n p]. simpl. intro H.
  assert (n = 0)%Z by lia. subst. reflexivity.
Qed.

(** Yates' correction moves two cells with opposite deviations by opposite
    amounts. *)
Lemma yates_pair o1 e1 o2 e2 :
  e1 + e2 == o1 + o2 -> yates o1 e1 + yates o2 e2 == o1 + o2.
Proof.
  intro Hsum. unfold yates.
  assert (Hopp : e2 - o2 == - (e1 - o1)) by lra.
  assert (Habs : Qabs (e2 - o2) == Qabs (e1 - o1)).
  { rewrite Hopp. apply Qabs_opp. }
  rewrite Habs.
  destruct (Q_dec (e1 - o1) 0) as [[Hlt|Hgt]|Heq].
  - rewrite (Qsign_neg _ Hlt), (Qsign_pos (e2 - o2)) by lra. ring.
  - rewrite (Qsign_pos _ Hgt), (Qsign_neg (e2 - o2)) by lra. ring.
  - rewrite (Qsign_zero _ Heq), (Qsign_zero (e2 - o2)) by lra. ring.
Qed.

Lemma zip_with_map {A B C D : Type} (f : B -> C -> D) (g : A -> B)
    (h : A -> C) l :
  zip_with f (map g l) (map h l) = map (fun x => f (g x) (h x)) l.
Proof. induction l as [|x l IH]; simpl; [reflexivity|]. now rewrite IH. Qed.

Lemma expected_sum n values :
  Forall (fun row => List.length row = n) values ->
  ncols_of values = n -> total values <> 0%Z ->
  Qsum (map Qsum (expected_freq values)) == inject_Z (total values).
Proof.
  intros Hrect Hn Ht. unfold expected_freq. rewrite Hn, map_map.
  assert (Hne : ~ inject_Z (total values) == 0).
  { change 0 with (inject_Z 0). rewrite inject_Z_injective. exact Ht. }
  transitivity (Qsum (map inject_Z (row_sums values))).
  - apply Qsum_map_ext. intros r _.
    rewrite Qsum_scaled, (col_sums_total n values Hrect).
    field. exact Hne.
  - apply Qsum_inject.
Qed.

Lemma yates_sum_two_columns values :
  Forall (fun row => List.length row = 2%nat) values ->
  ncols_of values = 2%nat -> total values <> 0%Z ->
  Qsum (map Qsum (zip_with (zip_with yates) (map (map inject_Z) values)
                           (expected_freq values)))
  == inject_Z (total values).
Proof.
  intros Hrect Hn Ht. rewrite <- (observed_sum values).
  unfold expected_freq. rewrite Hn.
  pose proof (col_sums_total 2 values Hrect) as Hcs.
  assert (Hlen : List.length (col_sums 2 values) = 2%nat).
  { unfold col_sums. now rewrite length_map, length_seq. }
  destruct (col_sums 2 values) as [|cs1 [|cs2 [|? ?]]]; try discriminate.
  cbn in Hcs. unfold row_sums.
  rewrite (map_map Zsum), zip_with_map, !map_map.
  apply Qsum_map_ext. intros row Hrow.
  rewrite Forall_forall in Hrect. specialize (Hrect row Hrow).
  destruct row as [|a [|b [|? ?]]]; try discriminate. cbn.
  rewrite !Qplus_0_r. apply yates_pair.
  replace (a + (b + 0))%Z with (a + b)%Z by ring.
  rewrite (expected_row_sum (a + b) cs1 cs2 (total values));
    [rewrite inject_Z_plus; reflexivity | lia | exact Ht].
Qed.

Lemma power_divergence_agree f_obs f_exp :
  Qsum (map Qsum f_obs) == Qsum (map Qsum f_exp) ->
  power_divergence f_obs f_exp = inr (pearson f_obs f_exp).
Proof.
  intro H. unfold power_divergence.
  set (m := Qmin _ _).
  assert (Hrel : Qabs (Qsum (map Qsum f_obs) - Qsum (map Qsum f_exp)) / m
                 == 0).
  { assert (H0 : Qsum (map Qsum f_obs) - Qsum (map Qsum f_exp) == 0)
      by (rewrite H; ring).
    rewrite H0. unfold Qdiv. cbn [Qabs Z.abs]. ring. }
  destruct (Qltb _ _) eqn:E; [|reflexivity].
  apply Qltb_lt in E. rewrite Hrel in E. discriminate E.
Qed.

Lemma crosstab_rectangular d s :
  Forall (fun row => List.length row
                     = List.length (ct_columns (crosstab d s)))
         (ct_values (crosstab d s)).
Proof.
  rewrite values_rows. apply Forall_forall. intros row Hrow.
  apply in_map_iff in Hrow. destruct Hrow as [r [<- _]]. apply length_map.
Qed.

Section Test.

Variable chi2_sf : Q -> Z -> Q.

(** On the cross-tabulation of a Dataset with at least one row
    [chi2_contingency] raises nothing. *)
Lemma chi2_contingency_crosstab d s :
  d <> [] ->
  exists res,
    chi2_contingency chi2_sf (ct_values (crosstab d s)) = inr res
    /\ dof res = ((len (ct_index (crosstab d s)) - 1)
                  * (len (ct_columns (crosstab d s)) - 1))%Z
    /\ ((dof res = 0%Z /\ statistic res = Val 0 /\ pvalue res = Val 1)
        \/ (dof res <> 0%Z
            /\ exists chi2,
                 0 <= chi2 /\ statistic res = Val chi2
                 /\ pvalue res = Val (chi2_sf chi2 (dof res)))).
Proof.
  intro Hd. unfold chi2_contingency.
  rewrite (existsb2_false (fun x => (0 <= x)%Z) (fun x => (x <? 0)%Z) _
             (fun x Hx => proj2 (Z.ltb_ge x 0) Hx) (values_nonneg d s)).
  rewrite (ncols_of_values d s Hd), (len_values d s).
  pose proof (index_nonempty d s Hd) as Hi.
  pose proof (columns_nonempty d s Hd) as Hc.
  set (nr := len (ct_index (crosstab d s))).
  set (nc := Z.of_nat (List.length (ct_columns (crosstab d s)))).
  assert (Hnr : (1 <= nr)%Z).
  { subst nr. unfold len. destruct (ct_index (crosstab d s));
      [congruence|simpl; lia]. }
  assert (Hnc : (1 <= nc)%Z).
  { subst nc. destruct (ct_columns (crosstab d s));
      [congruence|simpl; lia]. }
  destruct (Z.eqb_spec (nr * nc) 0) as [H0|_]; [nia|].
  pose proof (total_pos d s Hd) as Ht.
  destruct (Z.eqb_spec (total (ct_values (crosstab d s))) 0) as [H0|_];
    [lia|].
  pose proof (expected_pos d s Hd) as Hexp.
  rewrite (existsb2_false (fun e => 0 < e) (fun e => Qeq_bool e 0) _) ;
    [|intros e He; destruct (Qeq_bool e 0) eqn:E; [|reflexivity];
      apply Qeq_bool_eq in E; lra | exact Hexp].
  assert (Hdof : (nr * nc - (nr + nc) + 2 - 1 = (nr - 1) * (nc - 1))%Z)
    by ring.
  destruct (Z.eqb_spec (nr * nc - (nr + nc) + 2 - 1) 0) as [Hz|Hnz].
  - eexists. split; [reflexivity|]. cbn. split; [exact Hdof|]. left. auto.
  - pose proof (crosstab_rectangular d s) as Hrect.
    pose proof (ncols_of_values d s Hd) as Hncols.
    assert (Ht0 : total (ct_values (crosstab d s)) <> 0%Z) by lia.
    pose proof (expected_sum _ _ Hrect Hncols Ht0) as Hes.
    assert (Hpd : forall f_obs,
              Qsum (map Qsum f_obs)
              == inject_Z (total (ct_values (crosstab d s))) ->
              power_divergence f_obs
                (expected_freq (ct_values (crosstab d s)))
              = inr (pearson f_obs
                       (expected_freq (ct_values (crosstab d s))))).
    { intros f_obs Hobs. apply power_divergence_agree.
      now rewrite Hobs, Hes. }
    rewrite Hpd.
    + eexists. split; [reflexivity|]. cbn. split; [exact Hdof|]. right.
      split; [exact Hnz|]. eexists. split; [|split; reflexivity].
      now apply pearson_nonneg.
    + destruct (Z.eqb_spec (nr * nc - (nr + nc) + 2 - 1) 1) as [H1|_];
        [|apply observed_sum].
      assert (Hnc2 : List.length (ct_columns (crosstab d s)) = 2%nat).
      { assert (Hprod : ((nc - 1) * (nr - 1) = 1)%Z) by lia.
        apply Z.eq_mul_1 in Hprod. subst nc. lia. }
      rewrite Hnc2 in Hrect, Hncols.
      now apply yates_sum_two_columns.
Qed.

Lemma contingency_species_spec d s :
  d <> [] ->
  exists row,
    contingency_species chi2_sf d s = inr row
    /\ contingency_table row = crosstab d s
    /\ degrees_of_freedom row
       = ((len (ct_index (crosstab d s)) - 1)
          * (len (ct_columns (crosstab d s)) - 1))%Z
    /\ ((degrees_of_freedom row = 0%Z /\ chi2_statistic row = Val 0
         /\ p_value row = Val 1 /\ significant row = false)
        \/ (degrees_of_freedom row <> 0%Z
            /\ exists chi2,
                 0 <= chi2 /\ chi2_statistic row = Val chi2
                 /\ p_value row
                    = Val (chi2_sf chi2 (degrees_of_freedom row)))).
Proof.
  intro Hd. unfold contingency_species.
  destruct (chi2_contingency_crosstab d s Hd) as [res [E [Hdof Hres]]].
  rewrite E. eexists. split; [reflexivity|]. cbn.
  split; [reflexivity|]. split; [exact Hdof|].
  destruct Hres as [[H0 [Hs Hp]]|[Hn [chi2 [Hpos [Hs Hp]]]]].
  - left. rewrite Hp. auto.
  - right. split; [exact Hn|]. exists chi2. auto.
Qed.

Lemma contingency_analysis_rows d :
  d <> [] ->
  exists r1 r2 r3,
    contingency_analysis chi2_sf d = inr [(RGS, r1); (RES, r2); (PH, r3)]
    /\ contingency_species chi2_sf d RGS = inr r1
    /\ contingency_species chi2_sf d RES = inr r2
    /\ contingency_species chi2_sf d PH = inr r3.
Proof.
  intro Hd.
  destruct (contingency_species_spec d RGS Hd) as [r1 [E1 _]].
  destruct (contingency_species_spec d RES Hd) as [r2 [E2 _]].
  destruct (contingency_species_spec d PH Hd) as [r3 [E3 _]].
  exists r1, r2, r3. unfold contingency_analysis, species.
  cbn [contingency_loop]. rewrite E1, E2, E3. auto.
Qed.

Lemma In_contingency_analysis d rows s row :
  contingency_analysis chi2_sf d = inr rows ->
  In (s, row) rows ->
  d <> [] /\ contingency_species chi2_sf d s = inr row.
Proof.
  intros E Hin.
  assert (Hd : d <> []).
  { intros ->. discriminate E. }
  split; [exact Hd|].
  destruct (contingency_analysis_rows d Hd) as [r1 [r2 [r3 [E' [E1 [E2 E3]]]]]].
  rewrite E' in E. injection E as <-.
  destruct Hin as [H|[H|[H|[]]]]; injection H as <- <-; assumption.
Qed.

Lemma unique_from_constant v :
  forall l, Forall (fun x => x = v) l -> unique_from Z.eqb [v] l = [].
Proof.
  induction 1 as [|x l -> Hl IH]; [reflexivity|].
  cbn. now rewrite Z.eqb_refl.
Qed.

Lemma columns_of_uniform d s v :
  d <> [] -> Forall (fun o => present s o = v) d ->
  ct_columns (crosstab d s) = [v].
Proof.
  intros Hd Hv. unfold crosstab. cbn.
  destruct d as [|o d]; [congruence|].
  inversion Hv as [|? ? Ho Hrest]; subst.
  unfold unique. cbn. rewrite unique_from_constant; [reflexivity|].
  apply Forall_forall. intros x Hx. apply in_map_iff in Hx.
  destruct Hx as [o' [<- Ho']]. rewrite Forall_forall in Hrest.
  now apply Hrest.
Qed.

(** C2, as the code has it.  [contingency_analysis] raises (ValueError, no
    data) on the empty Dataset and on no other: on a Dataset with at least
    one row it returns an entry for each species, and for a species whose
    presence indicator is the same in every row the entry holds statistic 0,
    p-value 1, 0 degrees of freedom and [significant = false]. *)
Theorem contingency_analysis_total d :
  (d = [] -> contingency_analysis chi2_sf d = inl NoData)
  /\ (d <> [] ->
      exists rows,
        contingency_analysis chi2_sf d = inr rows
        /\ map fst rows = species
        /\ forall s row,
             In (s, row) rows -> uniform_presence s d ->
             chi2_statistic row = Val 0 /\ p_value row = Val 1
             /\ degrees_of_freedom row = 0%Z /\ significant row = false).
Proof.
  split; [intros ->; reflexivity|]. intro Hd.
  destruct (contingency_analysis_rows d Hd) as [r1 [r2 [r3 [E _]]]].
  eexists. split; [exact E|]. split; [reflexivity|].
  intros s row Hin [v Hv].
  destruct (In_contingency_analysis d _ s row E Hin) as [_ Es].
  destruct (contingency_species_spec d s Hd) as [row' [Es' [_ [Hdof Hres]]]].
  rewrite Es in Es'. injection Es' as <-.
  rewrite (columns_of_uniform d s v Hd Hv) in Hdof.
  assert (H0 : degrees_of_freedom row = 0%Z).
  { rewrite Hdof. unfold len at 2. cbn. ring. }
  destruct Hres as [[_ [Hs [Hp Hsig]]]|[Hn _]]; [auto|contradiction].
Qed.

End Test.

Lemma nine_rows_nonempty : Sample.nine_rows <> [].
Proof. discriminate. Defined.

Lemma contingency_analysis_total_witness :
  Sample.nine_rows <> []
  /\ exists rows,
       contingency_analysis Sample.sf_stand_in Sample.nine_rows = inr rows
       /\ map fst rows = species
       /\ forall s row,
            In (s, row) rows -> uniform_presence s Sample.nine_rows ->
            chi2_statistic row = Val 0 /\ p_value row = Val 1
            /\ degrees_of_freedom row = 0%Z /\ significant row = false.
Proof.
  split; [exact nine_rows_nonempty|].
  exact (proj2 (contingency_analysis_total Sample.sf_stand_in
                  Sample.nine_rows) nine_rows_nonempty).
Defined.

(** C2, as stated, fails on the nine-row sample: RES is absent from every
    observation, and the analysis returns an entry for it, with statistic 0,
    p-value 1 and [significant = false], instead of raising. *)
Lemma degenerate_input_not_rejected :
  degenerate Sample.nine_rows
  /\ exists rows row,
       contingency_analysis Sample.sf_stand_in Sample.nine_rows = inr rows
       /\ In (RES, row) rows
       /\ ct_values (contingency_table row) = [[3]; [3]; [3]]%Z
       /\ chi2_statistic row = Val 0
       /\ p_value row = Val 1
       /\ degrees_of_freedom row = 0%Z
       /\ significant row = false.
Proof.
  split.
  - exists RES. left. unfold Sample.nine_rows. repeat constructor.
  - eexists. eexists. split; [vm_compute; reflexivity|].
    split; [right; left; reflexivity|]. repeat split.
Qed.

(** The scenario of the specification on the nine-row sample: the
    statistic of RGS, present in "A" only, is 9 with 2 degrees of
    freedom. *)
Example nine_rows_RGS_statistic :
  exists rows row,
    contingency_analysis Sample.sf_stand_in Sample.nine_rows = inr rows
    /\ In (RGS, row) rows
    /\ ct_values (contingency_table row) = [[0; 3]; [3; 0]; [3; 0]]%Z
    /\ option_map Qred (match chi2_statistic row with
                        | Val q => Some q
                        | NaN => None
                        end) = Some 9
    /\ degrees_of_freedom row = 2%Z.
Proof.
  eexists. eexists. split; [vm_compute; reflexivity|].
  split; [left; reflexivity|]. repeat split.
Qed.

(** A 2 x 2 table: with Yates' correction the table [[1; 3]; [3; 1]] has
    the statistic 1/2 on 1 degree of freedom. *)
Example two_by_two_RGS_statistic :
  exists rows row,
    contingency_analysis Sample.sf_stand_in Sample.two_by_two = inr rows
    /\ In (RGS, row) rows
    /\ ct_values (contingency_table row) = [[1; 3]; [3; 1]]%Z
    /\ option_map Qred (match chi2_statistic row with
                        | Val q => Some q
                        | NaN => None
                        end) = Some (1 # 2)
    /\ degrees_of_freedom row = 1%Z.
Proof.
  eexists. eexists. split; [vm_compute; reflexivity|].
  split; [left; reflexivity|]. repeat split.
Qed.

End ContingencyFacts.

(** * Further properties of the code *)

(** ** The generator at every request *)

Module GeneratorExtras.

Import Generator Vocabulary GeneratorFacts.

Lemma filter_repeat (x y : string) m :
  filter (fun w => String.eqb w x) (repeat y m)
  = if String.eqb y x then repeat y m else [].
Proof.
  induction m as [|m IH]; simpl.
  - now destruct (String.eqb y x).
  - rewrite IH. now destruct (String.eqb y x).
Qed.

Section WithSource.

Variable R : RandomSource.

(** X1. Whatever the request, a Dataset returned by
    [generate_habitat_data] has [n_samples // 3] rows of each of the three
    habitat types, hence [3 * (n_samples // 3)] rows in all; it has
    [n_samples] rows exactly when [n_samples] is a multiple of 3. *)
Theorem rows_per_request n_samples g d :
  fst (generate_habitat_data R n_samples g) = Some d ->
  group_sizes d
  = [Z.to_nat (n_samples / 3); Z.to_nat (n_samples / 3);
     Z.to_nat (n_samples / 3)]
  /\ Z.of_nat (List.length d) = (3 * (n_samples / 3))%Z
  /\ (Z.of_nat (List.length d) = n_samples <-> (n_samples mod 3 = 0)%Z).
Proof.
  intro E.
  destruct (generate_habitat_data_inv R n_samples g d E) as [Hn [W [I _]]].
  split.
  - rewrite group_sizes_of_labels, W. cbn [flat_map water_types map].
    rewrite !filter_app, !filter_repeat. cbn.
    now rewrite !app_nil_r, !repeat_length.
  - assert (L : List.length d = (3 * Z.to_nat (n_samples / 3))%nat).
    { rewrite <- (length_map observation_id), I. unfold ids_from.
      now rewrite length_map, length_seq. }
    assert (Hq : (0 <= n_samples / 3)%Z) by (apply Z.div_pos; lia).
    pose proof (Z.div_mod n_samples 3 ltac:(lia)) as Hdm.
    rewrite L. split; lia.
Qed.

(** X2. The small requests: a negative [n_samples] raises; 0, 1 and 2
    return the empty Dataset without drawing from the generator; from 3 on
    the Dataset has rows. *)
Theorem small_requests n_samples g :
  ((n_samples < 0)%Z -> fst (generate_habitat_data R n_samples g) = None)
  /\ ((0 <= n_samples < 3)%Z ->
      generate_habitat_data R n_samples g = (Some [], g))
  /\ ((3 <= n_samples)%Z ->
      exists o d, fst (generate_habitat_data R n_samples g) = Some (o :: d)).
Proof.
  split; [apply generate_habitat_data_negative|]. split.
  - intro Hn. unfold generate_habitat_data.
    replace (n_samples / 3)%Z with 0%Z
      by (symmetry; apply Z.div_small; lia).
    reflexivity.
  - intro Hn.
    destruct (generate_habitat_data_spec R n_samples g) as [d [E [W _]]];
      [lia|].
    assert (Hq : (1 <= n_samples / 3)%Z)
      by (apply Z.div_le_lower_bound; lia).
    destruct d as [|o d]; [|now exists o, d].
    apply (f_equal (@List.length string)) in W. simpl in W.
    rewrite !length_app, !repeat_length in W. simpl in W. lia.
Qed.

End WithSource.

Lemma rows_per_request_witness :
  exists d,
    fst (generate_habitat_data LCG.source 10 42%Z) = Some d
    /\ group_sizes d = [3; 3; 3]%nat
    /\ Z.of_nat (List.length d) = 9%Z.
Proof.
  destruct (generate_habitat_data_spec LCG.source 10 42%Z) as [d [E _]];
    [lia|].
  exists d. split; [exact E|].
  destruct (rows_per_request LCG.source 10 42%Z d E) as [G [L _]].
  split; [exact G | exact L].
Defined.

Lemma small_requests_witness :
  fst (generate_habitat_data LCG.source (-1) 42%Z) = None
  /\ generate_habitat_data LCG.source 2 42%Z = (Some [], 42%Z).
Proof.
  split.
  - apply (proj1 (small_requests LCG.source (-1) 42%Z)). lia.
  - apply (proj1 (proj2 (small_requests LCG.source 2 42%Z))). lia.
Defined.

End GeneratorExtras.

(** ** Occurrence rates and the summary *)

Module AnalyzerExtras.

Import Frame Vocabulary Analyzer FrameFacts AnalyzerFacts.

Lemma Zsum_ones {A : Type} (l : list A) : Zsum (map (fun _ => 1%Z) l) = len l.
Proof.
  unfold len. induction l as [|x l IH]; [reflexivity|].
  cbn [map List.length]. rewrite Zsum_cons, IH. lia.
Qed.

(** The sizes of the habitat subsets add up to the size of the Dataset. *)
Lemma habitat_sizes_total d :
  Zsum (map (fun wt => len (habitat_subset d wt)) (water_types_of d))
  = len d.
Proof.
  rewrite <- (Zsum_ones d).
  rewrite <- (Zsum_by_habitat (fun _ => 1%Z) (water_types_of d)
                (NoDup_water_types_of d) d).
  - apply f_equal, map_ext. intro wt. symmetry. apply Zsum_ones.
  - intros o Ho. apply In_water_types_of. now apply in_map.
Qed.

(** X3. [calculate_occurrence_rates] produces exactly one record for each
    pair of a water type of the Dataset and a species: three records per
    water type, no pair twice, and a record for every pair. *)
Theorem one_record_per_pair d :
  List.length (calculate_occurrence_rates d)
  = (3 * List.length (water_types_of d))%nat
  /\ NoDup (map (fun r => (occ_water_body_type r, occ_species r))
                (calculate_occurrence_rates d))
  /\ (forall wt s,
        In wt (map water_body_type d) <->
        exists r, In r (calculate_occurrence_rates d)
                  /\ occ_water_body_type r = wt /\ occ_species r = s).
Proof.
  split; [|split].
  - unfold calculate_occurrence_rates.
    induction (water_types_of d) as [|wt wts IH]; [reflexivity|].
    cbn [flat_map]. rewrite length_app, IH. cbn. lia.
  - unfold calculate_occurrence_rates.
    pose proof (NoDup_water_types_of d) as Hnd.
    induction Hnd as [|wt wts Hwt Hnd IH]; [constructor|].
    cbn [flat_map]. rewrite map_app. apply NoDup_app.
    + cbn. repeat constructor; cbn; intuition congruence.
    + exact IH.
    + intros [w s] Hin Hin'.
      assert (Hw : w = wt).
      { cbn in Hin. destruct Hin as [H|[H|[H|[]]]]; now injection H. }
      subst w.
      apply in_map_iff in Hin'. destruct Hin' as [r [Er Hr]].
      apply in_flat_map in Hr. destruct Hr as [wt' [Hwt' Hr]].
      apply in_map_iff in Hr. destruct Hr as [s' [<- _]].
      cbn in Er. injection Er as -> _. contradiction.
  - intros wt s. rewrite <- In_water_types_of. split.
    + intro Hwt. exists (occurrence_row d wt s).
      split; [|split; reflexivity].
      apply In_calculate_occurrence_rates. eauto.
    + intros [r [Hr [Ewt _]]]. apply In_calculate_occurrence_rates in Hr.
      destruct Hr as [wt' [s' [Hwt' ->]]]. cbn in Ewt. now subst.
Qed.

(** X4. For each species the observation counts [n_observations] of its
    records add up to the number of rows of the Dataset: the habitat
    subsets split the Dataset, no row is counted twice or left out. *)
Theorem observation_counts_partition d s :
  Zsum (map n_observations
            (filter (fun r => Species_eqb (occ_species r) s)
                    (calculate_occurrence_rates d)))
  = len d.
Proof.
  rewrite rows_of_species, map_map. cbn. apply habitat_sizes_total.
Qed.

Lemma rate_percent_scaled a n :
  (0 < n)%Z -> rate_percent a n * inject_Z n == 100 * inject_Z a.
Proof.
  intro Hn. unfold rate_percent.
  assert (Hne : ~ inject_Z n == 0).
  { change 0 with (inject_Z 0). rewrite inject_Z_injective. lia. }
  field. exact Hne.
Qed.

Lemma rate_percent_100 a n :
  (0 < n)%Z -> (rate_percent a n == 100 <-> a = n).
Proof.
  intro Hn. pose proof (rate_percent_scaled a n Hn) as Hs. split.
  - intro H. rewrite H in Hs.
    assert (Heq : inject_Z n == inject_Z a) by lra.
    unfold Qeq in Heq. simpl in Heq. lia.
  - intros ->.
    assert (Hpos : 0 < inject_Z n).
    { change 0 with (inject_Z 0). rewrite <- Zlt_Qlt. exact Hn. }
    nra.
Qed.

Lemma rate_percent_0 a n :
  (0 < n)%Z -> (rate_percent a n == 0 <-> a = 0%Z).
Proof.
  intro Hn. pose proof (rate_percent_scaled a n Hn) as Hs. split.
  - intro H. rewrite H in Hs.
    assert (Heq : inject_Z a == inject_Z 0) by (change (inject_Z 0) with 0; lra).
    unfold Qeq in Heq. simpl in Heq. lia.
  - intros ->. unfold rate_percent, Qdiv. change (inject_Z 0) with 0. ring.
Qed.

Lemma presence_count_full s d :
  Forall (fun o => binary (present s o)) d ->
  (presence_count s d = len d <-> Forall (fun o => present s o = 1%Z) d).
Proof.
  unfold presence_count, len. intro Hbin. split.
  - intro H. apply Nat2Z.inj, filter_length_forallb in H.
    rewrite forallb_forall in H. apply Forall_forall. intros o Ho.
    apply Z.eqb_eq. now apply H.
  - intro H. rewrite forallb_filter_id; [reflexivity|].
    apply forallb_forall. intros o Ho. rewrite Forall_forall in H.
    apply Z.eqb_eq. now apply H.
Qed.

Lemma presence_count_none s d :
  Forall (fun o => binary (present s o)) d ->
  (presence_count s d = 0%Z <-> Forall (fun o => present s o = 0%Z) d).
Proof.
  unfold presence_count, len.
  induction 1 as [|o d Ho Hd IH]; [split; [constructor|reflexivity]|].
  cbn [filter]. destruct Ho as [E|E]; rewrite E; cbn [Z.eqb Pos.eqb].
  - rewrite IH. split; [now constructor|]. intro H. now inversion H.
  - split; [cbn [List.length]; lia|]. intro H. inversion H. congruence.
Qed.

(** X5. On a Dataset with 0/1 presence indicators, a record of
    [calculate_occurrence_rates] has rate 100 exactly when the species is
    present in every observation of the habitat type, and rate 0 exactly
    when it is present in none. *)
Theorem rate_extremes d :
  binary_presence d ->
  forall r, In r (calculate_occurrence_rates d) ->
    (occurrence_rate r == 100 <->
     Forall (fun o => present (occ_species r) o = 1%Z)
            (habitat_subset d (occ_water_body_type r)))
    /\ (occurrence_rate r == 0 <->
        Forall (fun o => present (occ_species r) o = 0%Z)
               (habitat_subset d (occ_water_body_type r))).
Proof.
  intros Hbin r Hr. apply In_calculate_occurrence_rates in Hr.
  destruct Hr as [wt [s [Hwt ->]]]. cbn.
  pose proof (habitat_subset_nonempty d wt Hwt) as Hpos.
  assert (Hsub : Forall (fun o => binary (present s o))
                        (habitat_subset d wt)).
  { pose proof (binary_presence_subset d wt Hbin) as Hs.
    unfold binary_presence in Hs. rewrite Forall_forall in *.
    intros o Ho. now apply Hs. }
  rewrite (Zsum_binary_count s _ Hsub). split.
  - rewrite (rate_percent_100 _ _ Hpos). now apply presence_count_full.
  - rewrite (rate_percent_0 _ _ Hpos). now apply presence_count_none.
Qed.

Lemma rate_extremes_witness :
  binary_presence Sample.nine_rows
  /\ forall r, In r (calculate_occurrence_rates Sample.nine_rows) ->
       (occurrence_rate r == 100 <->
        Forall (fun o => present (occ_species r) o = 1%Z)
               (habitat_subset Sample.nine_rows (occ_water_body_type r)))
       /\ (occurrence_rate r == 0 <->
           Forall (fun o => present (occ_species r) o = 0%Z)
                  (habitat_subset Sample.nine_rows (occ_water_body_type r))).
Proof.
  split; [exact nine_rows_binary|].
  exact (rate_extremes Sample.nine_rows nine_rows_binary).
Defined.

Lemma weighted_bound {A : Type} (M : Q) (a b : A -> Z) l :
  (forall x, In x l -> 100 * inject_Z (a x) <= M * inject_Z (b x)) ->
  100 * inject_Z (Zsum (map a l)) <= M * inject_Z (Zsum (map b l)).
Proof.
  induction l as [|x l IH]; intro H.
  - change (100 * 0 <= M * 0). lra.
  - cbn [map]. rewrite !Zsum_cons, !inject_Z_plus.
    assert (Hx := H x (or_introl eq_refl)).
    assert (Hl : 100 * inject_Z (Zsum (map a l))
                 <= M * inject_Z (Zsum (map b l))).
    { apply IH. intros y Hy. apply H. now right. }
    lra.
Qed.

(** The rate of a species over the whole Dataset is at most its greatest
    per-habitat rate. *)
Lemma first_maximum_bounds_overall d s row :
  d <> [] -> first_maximum d s row ->
  rate_percent (Zsum (map (present s) d)) (len d) <= preference_rate row.
Proof.
  intros Hd [i [_ [_ [Hmax _]]]].
  set (M := preference_rate row) in *.
  assert (Hsum :
    100 * inject_Z (Zsum (map (fun wt =>
                     Zsum (map (present s) (habitat_subset d wt)))
                   (water_types_of d)))
    <= M * inject_Z (Zsum (map (fun wt => len (habitat_subset d wt))
                               (water_types_of d)))).
  { apply weighted_bound. intros wt Hwt.
    pose proof (habitat_subset_nonempty d wt Hwt) as Hpos.
    specialize (Hmax wt Hwt). cbn in Hmax.
    rewrite <- (rate_percent_scaled _ _ Hpos).
    apply Qmult_le_compat_r; [exact Hmax|].
    change 0 with (inject_Z 0). rewrite <- Zle_Qle. lia. }
  rewrite habitat_sizes_total in Hsum.
  rewrite (Zsum_by_habitat (present s) (water_types_of d)
             (NoDup_water_types_of d) d) in Hsum
    by (intros o Ho; apply In_water_types_of; now apply in_map).
  assert (Hn : (0 < len d)%Z).
  { unfold len. destruct d; [congruence|cbn [List.length]; lia]. }
  rewrite <- (rate_percent_scaled _ _ Hn) in Hsum.
  apply Qmult_lt_0_le_reg_r with (z := inject_Z (len d)); [|exact Hsum].
  change 0 with (inject_Z 0). rewrite <- Zlt_Qlt. exact Hn.
Qed.

(** X6. On a Dataset with at least one row, the [preference_rate] that
    [summarize_findings] reports for a species is at least the occurrence
    rate of that species over the whole Dataset (its column sum over the
    number of rows, as a percentage). *)
Theorem preferred_rate_at_least_overall d :
  d <> [] ->
  exists summary,
    summarize_findings d = Some summary
    /\ forall s row, In (s, row) summary ->
         rate_percent (Zsum (map (present s) d)) (len d)
         <= preference_rate row.
Proof.
  intro Hd. unfold summarize_findings, species. cbn [summarize_loop].
  destruct (summarize_species_spec d RGS Hd) as [r1 [E1 M1]].
  destruct (summarize_species_spec d RES Hd) as [r2 [E2 M2]].
  destruct (summarize_species_spec d PH Hd) as [r3 [E3 M3]].
  rewrite E1, E2, E3. eexists. split; [reflexivity|].
  intros s row [H|[H|[H|[]]]]; injection H as <- <-;
    now apply first_maximum_bounds_overall.
Qed.

Lemma preferred_rate_at_least_overall_witness :
  Sample.nine_rows <> []
  /\ exists summary,
       summarize_findings Sample.nine_rows = Some summary
       /\ forall s row, In (s, row) summary ->
            rate_percent (Zsum (map (present s) Sample.nine_rows))
                         (len Sample.nine_rows)
            <= preference_rate row.
Proof.
  assert (Hne : Sample.nine_rows <> []) by discriminate.
  split; [exact Hne|].
  exact (preferred_rate_at_least_overall Sample.nine_rows Hne).
Defined.

End AnalyzerExtras.

(** ** The contingency table *)

Module ContingencyExtras.

Import Frame Vocabulary Analyzer FrameFacts AnalyzerExtras ContingencyFacts.

Lemma NoDup_insert_sorted {A : Type} (leb : A -> A -> bool) x l :
  ~ In x l -> NoDup l -> NoDup (insert_sorted leb x l).
Proof.
  induction l as [|y l IH]; intros Hx Hl; simpl.
  - constructor; [tauto|constructor].
  - destruct (leb x y); [now constructor|].
    inversion Hl as [|? ? Hy Hl']; subst. constructor.
    + rewrite In_insert_sorted. simpl in Hx. intuition congruence.
    + apply IH; [simpl in Hx; tauto | exact Hl'].
Qed.

Lemma NoDup_sorted {A : Type} (leb : A -> A -> bool) l :
  NoDup l -> NoDup (sorted leb l).
Proof.
  unfold sorted. induction 1 as [|x l Hx Hl IH]; simpl; [constructor|].
  apply NoDup_insert_sorted; [|exact IH].
  now rewrite (In_sorted leb x l).
Qed.

Lemma Zsum_indicator_Z (x v : Z) ws :
  NoDup ws ->
  Zsum (map (fun w => if Z.eqb x w then v else 0%Z) ws)
  = if in_dec Z.eq_dec x ws then v else 0%Z.
Proof.
  induction 1 as [|w ws Hw Hnd IH]; simpl; [reflexivity|].
  rewrite IH. destruct (Z.eqb_spec x w) as [->|Hne].
  - destruct (Z.eq_dec w w); [|congruence].
    destruct (in_dec Z.eq_dec w ws); [contradiction|lia].
  - destruct (Z.eq_dec w x); [congruence|].
    destruct (in_dec Z.eq_dec x ws); lia.
Qed.

(** Counting the rows selected by [P] value by value of a column counts
    each of them once. *)
Lemma count_by_value (P : Observation -> bool) s cols :
  NoDup cols ->
  forall d,
    (forall o, In o d -> In (present s o) cols) ->
    Zsum (map (fun c => len (filter (fun o => P o && Z.eqb (present s o) c)
                                    d)) cols)
    = len (filter P d).
Proof.
  intros Hnd. induction d as [|o d IH]; intro Hin.
  - apply Zsum_map_zero. reflexivity.
  - assert (Hstep :
      Zsum (map (fun c => len (filter (fun o => P o
                                                && Z.eqb (present s o) c)
                                      (o :: d))) cols)
      = (Zsum (map (fun c => if Z.eqb (present s o) c
                             then (if P o then 1 else 0) else 0)%Z cols)
         + Zsum (map (fun c => len (filter (fun o => P o
                                              && Z.eqb (present s o) c)
                                           d)) cols))%Z).
    { clear. induction cols as [|c cols IHc]; [reflexivity|].
      rewrite !map_cons, !Zsum_cons, IHc. unfold len. cbn [filter].
      destruct (P o), (Z.eqb (present s o) c); cbn [andb List.length];
        lia. }
    rewrite Hstep, (Zsum_indicator_Z _ _ _ Hnd), IH
      by (intros o' Ho'; apply Hin; now right).
    destruct (in_dec Z.eq_dec (present s o) cols) as [_|Hn].
    + unfold len. cbn [filter]. destruct (P o); cbn [List.length]; lia.
    + exfalso. apply Hn, Hin. now left.
Qed.

Lemma NoDup_index d s : NoDup (ct_index (crosstab d s)).
Proof. apply NoDup_sorted, NoDup_water_types_of. Qed.

Lemma NoDup_columns d s : NoDup (ct_columns (crosstab d s)).
Proof. apply NoDup_sorted, NoDup_unique, Z.eqb_eq. Qed.

Lemma crosstab_row_sum d s r :
  Zsum (map (crosstab_cell d s r) (ct_columns (crosstab d s)))
  = len (habitat_subset d r).
Proof.
  unfold crosstab_cell, habitat_subset.
  apply (count_by_value (fun o => String.eqb (water_body_type o) r) s
           _ (NoDup_columns d s) d).
  intros o Ho. apply In_columns. now apply in_map.
Qed.

(** X7. The margins of the contingency table of a species: the row of a
    water type adds up to the number of observations of that water type,
    the whole table to the number of rows of the Dataset, and the table has
    one row for each water type of the Dataset and one column for each
    value of the presence column. *)
Theorem crosstab_margins d s :
  row_sums (ct_values (crosstab d s))
  = map (fun r => len (habitat_subset d r)) (ct_index (crosstab d s))
  /\ total (ct_values (crosstab d s)) = len d
  /\ (NoDup (ct_index (crosstab d s))
      /\ forall r, In r (ct_index (crosstab d s))
                   <-> In r (map water_body_type d))
  /\ (NoDup (ct_columns (crosstab d s))
      /\ forall c, In c (ct_columns (crosstab d s))
                   <-> In c (map (present s) d)).
Proof.
  assert (Hrows : row_sums (ct_values (crosstab d s))
                  = map (fun r => len (habitat_subset d r))
                        (ct_index (crosstab d s))).
  { unfold row_sums. rewrite values_rows, map_map. apply map_ext.
    intro r. apply crosstab_row_sum. }
  split; [exact Hrows|]. split; [|split].
  - unfold total. rewrite Hrows, <- (Zsum_ones d).
    rewrite <- (Zsum_by_habitat (fun _ => 1%Z) (ct_index (crosstab d s))
                  (NoDup_index d s) d).
    + apply f_equal, map_ext. intro r. symmetry. apply Zsum_ones.
    + intros o Ho. apply In_index. now apply in_map.
  - split; [apply NoDup_index | apply In_index].
  - split; [apply NoDup_columns | apply In_columns].
Qed.

Lemma sorted_unique_binary l :
  Forall binary l -> In 0%Z l -> In 1%Z l ->
  sorted Z.leb (unique Z.eqb l) = [0; 1]%Z.
Proof.
  intros Hbin H0 H1.
  pose proof (NoDup_unique Z.eqb Z.eqb_eq l) as Hnd.
  assert (Hin : forall x, In x (unique Z.eqb l) <-> In x l)
    by (intro x; apply In_unique, Z.eqb_eq).
  assert (Hb : forall x, In x (unique Z.eqb l) -> binary x).
  { intros x Hx. rewrite Forall_forall in Hbin. now apply Hbin, Hin. }
  apply Hin in H0. apply Hin in H1.
  destruct (unique Z.eqb l) as [|a [|b [|c u]]].
  - contradiction.
  - destruct H0 as [->|[]], H1 as [E|[]]. discriminate E.
  - destruct (Hb a (or_introl eq_refl)) as [-> | ->],
             (Hb b (or_intror (or_introl eq_refl))) as [-> | ->];
      try reflexivity; exfalso; inversion Hnd as [|? ? Hn _]; subst;
      apply Hn; now left.
  - exfalso.
    inversion Hnd as [|? ? Ha Hnd1]; subst.
    inversion Hnd1 as [|? ? Hb' Hnd2]; subst.
    destruct (Hb a (or_introl eq_refl)) as [-> | ->],
             (Hb b (or_intror (or_introl eq_refl))) as [-> | ->],
             (Hb c (or_intror (or_intror (or_introl eq_refl))))
               as [-> | ->];
      cbn in Ha, Hb'; tauto.
Qed.

Lemma filter_filter {A : Type} (f g : A -> bool) l :
  filter g (filter f l) = filter (fun x => f x && g x) l.
Proof.
  induction l as [|x l IH]; [reflexivity|]. cbn [filter].
  destruct (f x); cbn [filter andb]; now rewrite IH.
Qed.

Section Test.

Variable chi2_sf : Q -> Z -> Q.

(** X8. On a Dataset with 0/1 presence indicators in which a species is
    present somewhere and absent somewhere, the contingency table that
    [contingency_analysis] stores for the species has the columns 0 and 1;
    the row of a water type holds the number of observations without and
    with the species, the second being the [occurrences] of
    [calculate_occurrence_rates]; and the degrees of freedom are the number
    of water types minus one. *)
Theorem two_column_table d rows s row :
  contingency_analysis chi2_sf d = inr rows ->
  In (s, row) rows ->
  binary_presence d ->
  In 0%Z (map (present s) d) ->
  In 1%Z (map (present s) d) ->
  ct_columns (contingency_table row) = [0; 1]%Z
  /\ ct_values (contingency_table row)
     = map (fun r => [(len (habitat_subset d r)
                       - occurrences (occurrence_row d r s))%Z;
                      occurrences (occurrence_row d r s)])
           (ct_index (contingency_table row))
  /\ degrees_of_freedom row
     = (Z.of_nat (List.length (water_types_of d)) - 1)%Z.
Proof.
  intros E Hin Hbin H0 H1.
  destruct (In_contingency_analysis chi2_sf d rows s row E Hin) as [Hd Es].
  destruct (contingency_species_spec chi2_sf d s Hd)
    as [row' [Es' [Ht [Hdof _]]]].
  rewrite Es in Es'. injection Es' as <-. rewrite Ht.
  assert (Hcols : ct_columns (crosstab d s) = [0; 1]%Z).
  { unfold crosstab. cbn. apply sorted_unique_binary; try assumption.
    apply Forall_forall. intros x Hx. apply in_map_iff in Hx.
    destruct Hx as [o [<- Ho]]. unfold binary_presence in Hbin.
    rewrite Forall_forall in Hbin. now apply Hbin. }
  split; [exact Hcols|]. split.
  - rewrite values_rows, Hcols. apply map_ext. intro r. cbn [map].
    pose proof (crosstab_row_sum d s r) as Hsum.
    rewrite Hcols in Hsum. cbn in Hsum.
    assert (Hone : crosstab_cell d s r 1
                   = occurrences (occurrence_row d r s)).
    { cbn. rewrite Zsum_binary_count.
      - unfold presence_count, crosstab_cell, habitat_subset.
        now rewrite filter_filter.
      - pose proof (binary_presence_subset d r Hbin) as Hs.
        unfold binary_presence in Hs. rewrite Forall_forall in *.
        intros o Ho. now apply Hs. }
    rewrite <- Hone. f_equal. lia.
  - rewrite Hdof, Hcols. unfold crosstab, len. cbn.
    rewrite length_sorted. lia.
Qed.

End Test.

Lemma two_column_table_witness :
  exists rows row,
    contingency_analysis Sample.sf_stand_in Sample.nine_rows = inr rows
    /\ In (PH, row) rows
    /\ ct_columns (contingency_table row) = [0; 1]%Z
    /\ degrees_of_freedom row
       = (Z.of_nat (List.length (water_types_of Sample.nine_rows)) - 1)%Z.
Proof.
  destruct (contingency_analysis_rows Sample.sf_stand_in Sample.nine_rows
              nine_rows_nonempty) as [r1 [r2 [r3 [E _]]]].
  exists [(RGS, r1); (RES, r2); (PH, r3)], r3.
  split; [exact E|].
  assert (Hin : In (PH, r3) [(RGS, r1); (RES, r2); (PH, r3)])
    by (right; right; left; reflexivity).
  split; [exact Hin|].
  destruct (two_column_table Sample.sf_stand_in Sample.nine_rows _ PH r3 E
              Hin AnalyzerFacts.nine_rows_binary)
    as [Hc [_ Hd]].
  - cbn. tauto.
  - cbn. tauto.
  - split; [exact Hc | exact Hd].
Defined.

End ContingencyExtras.

(** ** Descriptive statistics *)

Module StatisticsExtras.

Import Frame Vocabulary MoreVocabulary Analyzer FrameFacts StatisticsFacts.

Lemma Qsum_bounds lo hi xs :
  Forall (within lo hi) xs ->
  lo * inject_Z (len xs) <= Qsum xs /\ Qsum xs <= hi * inject_Z (len xs).
Proof.
  unfold len. induction 1 as [|x xs [Hlo Hhi] Hxs [IHlo IHhi]].
  - change (lo * 0 <= 0 /\ 0 <= hi * 0). split; lra.
  - change (Qsum (x :: xs)) with (x + Qsum xs). cbn [List.length].
    rewrite Nat2Z.inj_succ, <- Z.add_1_r, inject_Z_plus.
    change (inject_Z 1) with 1. split; lra.
Qed.

Lemma len_pos {A : Type} (l : list A) : l <> [] -> (0 < len l)%Z.
Proof. unfold len. destruct l; [congruence|cbn [List.length]; lia]. Qed.

Lemma series_mean_within lo hi xs :
  xs <> [] -> Forall (within lo hi) xs -> mean_within lo hi (series_mean xs).
Proof.
  intros Hne Hxs. destruct (Qsum_bounds lo hi xs Hxs) as [Hlo Hhi].
  assert (Hn : 0 < inject_Z (len xs)).
  { change 0 with (inject_Z 0). rewrite <- Zlt_Qlt. now apply len_pos. }
  destruct xs as [|x xs]; [congruence|].
  eexists. split; [reflexivity|]. split.
  - apply Qle_shift_div_l; assumption.
  - apply Qle_shift_div_r; assumption.
Qed.

Lemma Qsquare_nonneg a : 0 <= a * a.
Proof.
  destruct (Qlt_le_dec a 0) as [Hneg|Hpos].
  - setoid_replace (a * a) with ((- a) * (- a)) by ring.
    apply Qmult_le_0_compat; lra.
  - now apply Qmult_le_0_compat.
Qed.

Section WithSqrt.

Variable np_sqrt : Q -> Q.

Lemma series_std_root xs : root_of_variance np_sqrt xs (series_std np_sqrt xs).
Proof.
  unfold root_of_variance, series_std, nanvar. split.
  - intro H1. destruct (Z.leb_spec (len xs) 1) as [_|Hgt]; [reflexivity|].
    unfold len in Hgt. lia.
  - intro H2. destruct (Z.leb_spec (len xs) 1) as [Hle|Hgt].
    { unfold len in Hle. lia. }
    eexists. split; [reflexivity|].
    assert (Hden : 0 < inject_Z (len xs - 1)).
    { change 0 with (inject_Z 0). rewrite <- Zlt_Qlt. lia. }
    apply Qle_shift_div_l; [exact Hden|]. rewrite Qmult_0_l.
    apply ContingencyFacts.Qsum_nonneg, Forall_forall.
    intros y Hy. apply in_map_iff in Hy. destruct Hy as [x [<- _]].
    apply Qsquare_nonneg.
Qed.

(** X9. The standard deviations reported by [habitat_similarity] are never
    the root of a negative number: each one is NaN when the habitat type
    has a single observation, and [np.sqrt] of a non-negative variance
    when it has two or more. *)
Theorem deviations_are_roots d wt st :
  In (wt, st) (habitat_similarity np_sqrt d) ->
  root_of_variance np_sqrt (map salinity_ppt (habitat_subset d wt))
                   (salinity_std st)
  /\ root_of_variance np_sqrt (map pH (habitat_subset d wt)) (pH_std st)
  /\ root_of_variance np_sqrt (map temperature_C (habitat_subset d wt))
                      (temperature_std st)
  /\ root_of_variance np_sqrt
       (map dissolved_oxygen_mg_L (habitat_subset d wt))
       (dissolved_oxygen_std st).
Proof.
  intro Hin. unfold habitat_similarity in Hin.
  apply in_map_iff in Hin. destruct Hin as [w [E _]].
  injection E as -> <-. cbn. repeat split; apply series_std_root.
Qed.

(** X10. When every row of the Dataset has its covariates inside the
    clipping intervals of the generator, so has every mean reported by
    [habitat_similarity]: salinity in [0, 40], pH in [6, 9], temperature in
    [0, 35], dissolved oxygen in [2, 12]. *)
Theorem means_within_clipping_intervals d wt st :
  Forall plausible d ->
  In (wt, st) (habitat_similarity np_sqrt d) ->
  mean_within 0 40 (salinity_mean st)
  /\ mean_within 6 9 (pH_mean st)
  /\ mean_within 0 35 (temperature_mean st)
  /\ mean_within 2 12 (dissolved_oxygen_mean st).
Proof.
  intros Hpl Hin. unfold habitat_similarity in Hin.
  apply in_map_iff in Hin. destruct Hin as [w [E Hw]].
  injection E as -> <-.
  assert (Hne : habitat_subset d wt <> []).
  { pose proof (habitat_subset_nonempty d wt Hw) as Hpos.
    intro H0. rewrite H0 in Hpos. discriminate. }
  assert (Hmap : forall f : Observation -> Q,
            map f (habitat_subset d wt) <> []).
  { intros f H0. apply map_eq_nil in H0. contradiction. }
  assert (Hsub : forall o, In o (habitat_subset d wt) -> plausible o).
  { intros o Ho. apply In_habitat_subset in Ho.
    rewrite Forall_forall in Hpl. now apply Hpl. }
  assert (Hcol : forall (f : Observation -> Q) lo hi,
            (forall o, plausible o -> within lo hi (f o)) ->
            mean_within lo hi (series_mean (map f (habitat_subset d wt)))).
  { intros f lo hi Hf. apply series_mean_within; [apply Hmap|].
    apply Forall_forall. intros x Hx. apply in_map_iff in Hx.
    destruct Hx as [o [<- Ho]]. now apply Hf, Hsub. }
  cbn. repeat split; apply Hcol; intros o Ho; destruct Ho; assumption.
Qed.

End WithSqrt.

Lemma deviations_are_roots_witness :
  In ("B", habitat_stats Sample.sqrt_down Sample.lone_row "B")
     (habitat_similarity Sample.sqrt_down Sample.lone_row)
  /\ root_of_variance Sample.sqrt_down
       (map pH (habitat_subset Sample.lone_row "B"))
       (pH_std (habitat_stats Sample.sqrt_down Sample.lone_row "B")).
Proof.
  assert (Hin : In ("B", habitat_stats Sample.sqrt_down Sample.lone_row "B")
                   (habitat_similarity Sample.sqrt_down Sample.lone_row)).
  { simpl. auto. }
  split; [exact Hin|].
  exact (proj1 (proj2 (deviations_are_roots Sample.sqrt_down
                         Sample.lone_row "B" _ Hin))).
Defined.

Lemma lone_row_plausible : Forall plausible Sample.lone_row.
Proof.
  unfold Sample.lone_row.
  repeat (apply Forall_cons;
          [constructor; cbn; try (split; discriminate); unfold binary; auto|]).
  apply Forall_nil.
Defined.

Lemma means_within_clipping_intervals_witness :
  Forall plausible Sample.lone_row
  /\ In ("B", habitat_stats Sample.sqrt_down Sample.lone_row "B")
        (habitat_similarity Sample.sqrt_down Sample.lone_row)
  /\ mean_within 0 40
       (salinity_mean (habitat_stats Sample.sqrt_down Sample.lone_row "B")).
Proof.
  assert (Hin : In ("B", habitat_stats Sample.sqrt_down Sample.lone_row "B")
                   (habitat_similarity Sample.sqrt_down Sample.lone_row)).
  { simpl. auto. }
  split; [exact lone_row_plausible|]. split; [exact Hin|].
  exact (proj1 (means_within_clipping_intervals Sample.sqrt_down
                  Sample.lone_row "B" _ lone_row_plausible Hin)).
Defined.

End StatisticsExtras.

(** ** The analysis object *)

Module ClassExtras.

Import Frame Vocabulary Analyzer FrameFacts AnalyzerFacts ContingencyFacts.
Import AnalysisClass.

Lemma summarize_findings_some d :
  d <> [] -> exists summary, Analyzer.summarize_findings d = Some summary.
Proof.
  intro Hd. unfold Analyzer.summarize_findings, species.
  cbn [summarize_loop].
  destruct (summarize_species_spec d RGS Hd) as [r1 [E1 _]].
  destruct (summarize_species_spec d RES Hd) as [r2 [E2 _]].
  destruct (summarize_species_spec d PH Hd) as [r3 [E3 _]].
  rewrite E1, E2, E3. eexists. reflexivity.
Qed.

Section WithSpecialFunctions.

Variable np_sqrt : Q -> Q.
Variable chi2_sf : Q -> Z -> Q.

(** X11. [summarize_findings] depends on a previous
    [calculate_occurrence_rates]: on an object whose results hold no
    occurrence rates it raises KeyError and stores nothing; called after
    [calculate_occurrence_rates] on a Dataset with rows it stores and
    returns the summary of that Dataset, and on the empty Dataset [max]
    raises and no summary is stored. *)
Theorem summarize_needs_occurrence_rates :
  (forall self,
     results_occurrence_rates (results self) = None ->
     summarize_findings self
     = (inl (RaisedKeyError "occurrence_rates"), self))
  /\ (forall d,
        d <> [] ->
        exists summary self',
          Analyzer.summarize_findings d = Some summary
          /\ and_then calculate_occurrence_rates summarize_findings (init d)
             = (inr summary, self')
          /\ results_summary (results self') = Some summary
          /\ results_occurrence_rates (results self')
             = Some (Analyzer.calculate_occurrence_rates d))
  /\ (exists self',
        and_then calculate_occurrence_rates summarize_findings (init [])
        = (inl RaisedEmptyMax, self')
        /\ results_summary (results self') = None).
Proof.
  split; [|split].
  - intros self H. unfold summarize_findings. now rewrite H.
  - intros d Hd. destruct (summarize_findings_some d Hd) as [summary E].
    exists summary. eexists. split; [exact E|].
    unfold and_then, calculate_occurrence_rates, summarize_findings, init.
    cbn -[summarize_loop Analyzer.calculate_occurrence_rates].
    unfold Analyzer.summarize_findings in E. rewrite E.
    split; [reflexivity|]. split; reflexivity.
  - eexists. split; reflexivity.
Qed.

Lemma run_full_analysis_nonempty d r0 :
  d <> [] ->
  exists contingency summary,
    Analyzer.contingency_analysis chi2_sf d = inr contingency
    /\ Analyzer.summarize_findings d = Some summary
    /\ run_full_analysis np_sqrt chi2_sf (mkHabitatPreferenceAnalysis d r0)
       = (inr (mkResults
                 (Some contingency)
                 (Some (Analyzer.calculate_occurrence_rates d))
                 (Some (Analyzer.habitat_similarity np_sqrt d))
                 (Some summary)),
          mkHabitatPreferenceAnalysis d
            (mkResults
               (Some contingency)
               (Some (Analyzer.calculate_occurrence_rates d))
               (Some (Analyzer.habitat_similarity np_sqrt d))
               (Some summary))).
Proof.
  intro Hd.
  destruct (contingency_analysis_rows chi2_sf d Hd) as [r1 [r2 [r3 [E _]]]].
  destruct (summarize_findings_some d Hd) as [summary Es].
  eexists. exists summary. split; [exact E|]. split; [exact Es|].
  unfold run_full_analysis, and_then, contingency_analysis,
    calculate_occurrence_rates, habitat_similarity, summarize_findings.
  cbn -[summarize_loop Analyzer.calculate_occurrence_rates
        Analyzer.contingency_analysis Analyzer.habitat_similarity].
  rewrite E.
  cbn -[summarize_loop Analyzer.calculate_occurrence_rates
        Analyzer.contingency_analysis Analyzer.habitat_similarity].
  unfold Analyzer.summarize_findings in Es. rewrite Es. reflexivity.
Qed.

(** X12. [run_full_analysis] leaves nothing of earlier results behind: on
    a Dataset with rows it returns, and stores, the results of the four
    analyses of that Dataset, whatever [self.results] held before; on the
    empty Dataset it raises the ValueError of [contingency_analysis] (no
    data) and leaves [self.results] as it was. *)
Theorem run_full_analysis_results d r0 :
  (d = [] ->
   run_full_analysis np_sqrt chi2_sf (mkHabitatPreferenceAnalysis d r0)
   = (inl (RaisedValueError NoData), mkHabitatPreferenceAnalysis d r0))
  /\ (d <> [] ->
      exists contingency summary,
        Analyzer.contingency_analysis chi2_sf d = inr contingency
        /\ Analyzer.summarize_findings d = Some summary
        /\ run_full_analysis np_sqrt chi2_sf
             (mkHabitatPreferenceAnalysis d r0)
           = (inr (mkResults
                     (Some contingency)
                     (Some (Analyzer.calculate_occurrence_rates d))
                     (Some (Analyzer.habitat_similarity np_sqrt d))
                     (Some summary)),
              mkHabitatPreferenceAnalysis d
                (mkResults
                   (Some contingency)
                   (Some (Analyzer.calculate_occurrence_rates d))
                   (Some (Analyzer.habitat_similarity np_sqrt d))
                   (Some summary)))).
Proof.
  split.
  - intros ->. reflexivity.
  - apply run_full_analysis_nonempty.
Qed.

End WithSpecialFunctions.

Lemma summarize_needs_occurrence_rates_witness :
  summarize_findings (init Sample.nine_rows)
  = (inl (RaisedKeyError "occurrence_rates"), init Sample.nine_rows)
  /\ exists summary self',
       Analyzer.summarize_findings Sample.nine_rows = Some summary
       /\ and_then calculate_occurrence_rates summarize_findings
                   (init Sample.nine_rows)
          = (inr summary, self').
Proof.
  split.
  - apply (proj1 summarize_needs_occurrence_rates). reflexivity.
  - destruct (proj1 (proj2 summarize_needs_occurrence_rates)
                Sample.nine_rows nine_rows_nonempty)
      as [summary [self' [E [H _]]]].
    exists summary, self'. split; [exact E | exact H].
Defined.

Lemma run_full_analysis_results_witness :
  Sample.nine_rows <> []
  /\ exists res self',
       run_full_analysis Sample.sqrt_down Sample.sf_stand_in
         (init Sample.nine_rows) = (inr res, self')
       /\ results self' = res.
Proof.
  split; [exact nine_rows_nonempty|].
  destruct (proj2 (run_full_analysis_results Sample.sqrt_down
                     Sample.sf_stand_in Sample.nine_rows
                     (mkResults None None None None))
              nine_rows_nonempty)
    as [c [sm [_ [_ H]]]].
  eexists. eexists. split; [exact H|]. reflexivity.
Defined.

End ClassExtras.

(** ** The renderer's other plots *)

Module RendererExtras.

Import Frame Vocabulary Analyzer Renderer FrameFacts AnalyzerExtras.

Lemma assoc_colors h :
  (In h Generator.water_types -> exists c, assoc h colors = Some c)
  /\ (~ In h Generator.water_types -> assoc h colors = None).
Proof.
  unfold colors, Generator.water_types. cbn [assoc In].
  destruct (String.eqb_spec "Clear spring fed pond" h) as [<-|H1].
  { split; [eauto|tauto]. }
  destruct (String.eqb_spec "vegetated pond" h) as [<-|H2].
  { split; [eauto|tauto]. }
  destruct (String.eqb_spec "Oxbow analog" h) as [<-|H3].
  { split; [eauto|tauto]. }
  split; [tauto|reflexivity].
Qed.

Lemma bar_colors_of_known hs :
  Forall (fun h => In h Generator.water_types) hs ->
  exists cs, bar_colors_of hs = inr cs /\ List.length cs = List.length hs.
Proof.
  induction 1 as [|h hs Hh Hhs [cs [E L]]].
  - exists []. split; reflexivity.
  - destruct (proj1 (assoc_colors h) Hh) as [c Ec].
    exists (c :: cs). cbn [bar_colors_of]. rewrite Ec, E.
    split; [reflexivity|]. cbn. now rewrite L.
Qed.

Lemma bar_colors_of_unknown pre h post :
  Forall (fun h => In h Generator.water_types) pre ->
  ~ In h Generator.water_types ->
  bar_colors_of (pre ++ h :: post) = inl (KeyError h).
Proof.
  intros Hpre Hh. induction Hpre as [|p pre Hp Hpre IH].
  - cbn [app bar_colors_of]. now rewrite (proj2 (assoc_colors h) Hh).
  - destruct (proj1 (assoc_colors p) Hp) as [c Ec].
    cbn [app bar_colors_of]. now rewrite Ec, IH.
Qed.

Lemma known_water_types d :
  Forall (fun o => In (water_body_type o) Generator.water_types) d ->
  Forall (fun h => In h Generator.water_types) (water_types_of d).
Proof.
  intro H. apply Forall_forall. intros h Hh.
  apply In_water_types_of, in_map_iff in Hh. destruct Hh as [o [<- Ho]].
  rewrite Forall_forall in H. now apply H.
Qed.

Lemma plot_species_distribution_known d :
  Forall (fun h => In h Generator.water_types) (water_types_of d) ->
  exists panels,
    plot_species_distribution d = inr panels /\ map fst panels = species.
Proof.
  intro Hknown. destruct (bar_colors_of_known _ Hknown) as [cs [E _]].
  unfold plot_species_distribution, species. cbn [species_panels].
  unfold species_panel. rewrite E. eexists. split; reflexivity.
Qed.

Lemma plot_species_distribution_unknown d pre h post :
  water_types_of d = pre ++ h :: post ->
  Forall (fun h => In h Generator.water_types) pre ->
  ~ In h Generator.water_types ->
  plot_species_distribution d = inl (KeyError h).
Proof.
  intros Hw Hpre Hh.
  unfold plot_species_distribution, species. cbn [species_panels].
  unfold species_panel at 1.
  now rewrite Hw, (bar_colors_of_unknown pre h post Hpre Hh).
Qed.

(** X13. [plot_species_distribution] looks every water type of the Dataset
    up in its hard-coded colour dict: when all of them are among the three
    names of the generator it draws a panel for each species; otherwise it
    raises KeyError for the first water type, in order of first appearance,
    that is not one of the three, and draws nothing. *)
Theorem species_distribution_needs_known_water_types d :
  (Forall (fun o => In (water_body_type o) Generator.water_types) d ->
   exists panels,
     plot_species_distribution d = inr panels
     /\ map fst panels = species)
  /\ (forall pre h post,
        water_types_of d = pre ++ h :: post ->
        Forall (fun h => In h Generator.water_types) pre ->
        ~ In h Generator.water_types ->
        plot_species_distribution d = inl (KeyError h)).
Proof.
  split.
  - intro Hknown.
    apply plot_species_distribution_known, known_water_types, Hknown.
  - apply plot_species_distribution_unknown.
Qed.

Lemma assoc_counts (f : string -> Z) h u :
  assoc h (map (fun l => (l, f l)) u)
  = if in_dec string_dec h u then Some (f h) else None.
Proof.
  induction u as [|l u IH]; [reflexivity|]. cbn [map assoc].
  destruct (String.eqb_spec l h) as [->|Hne].
  - destruct (in_dec string_dec h (h :: u)) as [_|Hn]; [reflexivity|].
    exfalso. apply Hn. now left.
  - rewrite IH. destruct (in_dec string_dec h u) as [Hin|Hn],
      (in_dec string_dec h (l :: u)) as [Hin'|Hn']; try reflexivity.
    + exfalso. apply Hn'. now right.
    + destruct Hin' as [E|Hin']; [congruence|contradiction].
Qed.

(** [.get(h, 0)] on the value counts is the number of occurrences of the
    label, whether it occurs or not. *)
Lemma series_get_value_counts labels h :
  series_get (value_counts labels) h 0%Z
  = len (filter (String.eqb h) labels).
Proof.
  unfold series_get, value_counts. rewrite assoc_counts.
  destruct (in_dec string_dec h (unique String.eqb labels)) as [_|Hn];
    [reflexivity|].
  assert (Hnot : ~ In h labels).
  { intro Hin. apply Hn. apply In_unique; [apply String.eqb_eq|exact Hin]. }
  unfold len. replace (filter (String.eqb h) labels) with (@nil string);
    [reflexivity|].
  symmetry. clear Hn. induction labels as [|l labels IH]; [reflexivity|].
  cbn [filter]. destruct (String.eqb_spec h l) as [->|_].
  - exfalso. apply Hnot. now left.
  - apply IH. intro Hin. apply Hnot. now right.
Qed.

Lemma panel_count d s h :
  series_get (value_counts
                (map water_body_type
                     (filter (fun o => Z.eqb (present s o) 1) d))) h 0%Z
  = presence_count s (habitat_subset d h).
Proof.
  rewrite series_get_value_counts. unfold presence_count, habitat_subset.
  rewrite filter_map_swap. unfold len. rewrite length_map.
  rewrite !ContingencyExtras.filter_filter. apply f_equal, f_equal.
  apply filter_ext. intro o. rewrite (String.eqb_sym h). apply andb_comm.
Qed.

(** X14. In every panel that [plot_species_distribution] draws, the bars
    stand on the water types of the Dataset in order of first appearance,
    and the height of a bar is the number of observations of that water
    type in which the species is present (0, through the default of
    [.get], when there is none); on a Dataset with 0/1 presence indicators
    that is the [occurrences] of [calculate_occurrence_rates]. *)
Theorem species_distribution_counts d panels s bars :
  plot_species_distribution d = inr panels ->
  In (s, bars) panels ->
  habitats bars = water_types_of d
  /\ counts bars
     = map (fun h => presence_count s (habitat_subset d h))
           (water_types_of d)
  /\ List.length (bar_colors bars) = List.length (water_types_of d)
  /\ (binary_presence d ->
      counts bars
      = map (fun h => occurrences (occurrence_row d h s))
            (water_types_of d)).
Proof.
  intros E Hin.
  unfold plot_species_distribution, species in E.
  cbn [species_panels] in E. unfold species_panel in E. cbv zeta in E.
  destruct (bar_colors_of (water_types_of d)) as [e|cs] eqn:Ec;
    [discriminate|].
  assert (Hlen : List.length cs = List.length (water_types_of d)).
  { clear -Ec. revert cs Ec.
    induction (water_types_of d) as [|h hs IH]; intros cs Ec.
    - injection Ec as <-. reflexivity.
    - cbn [bar_colors_of] in Ec. destruct (assoc h colors); [|discriminate].
      destruct (bar_colors_of hs) as [|cs']; [discriminate|].
      injection Ec as <-. cbn. now rewrite (IH cs' eq_refl). }
  assert (Hcounts : forall s',
            map (fun h => series_get
                   (value_counts
                      (map water_body_type
                           (filter (fun o => Z.eqb (present s' o) 1) d)))
                   h 0%Z) (water_types_of d)
            = map (fun h => presence_count s' (habitat_subset d h))
                  (water_types_of d)).
  { intro s'. apply map_ext. intro h. apply panel_count. }
  injection E as <-.
  assert (Hbars : bars = mkSpeciesBars (water_types_of d)
                           (map (fun h => presence_count s
                                            (habitat_subset d h))
                                (water_types_of d)) cs).
  { destruct Hin as [H|[H|[H|[]]]]; injection H as <- <-; f_equal;
      first [exact (Hcounts RGS) | exact (Hcounts RES) | exact (Hcounts PH)]. }
  subst bars. cbn. repeat split; try assumption.
  intro Hbin. apply map_ext_in. intros h Hh. cbn. symmetry.
  apply Zsum_binary_count.
  pose proof (binary_presence_subset d h Hbin) as Hs.
  unfold binary_presence in Hs. rewrite Forall_forall in *.
  intros o Ho. now apply Hs.
Qed.

Lemma species_distribution_needs_known_water_types_witness :
  (exists panels,
     plot_species_distribution MoreSample.pond_rows = inr panels
     /\ map fst panels = species)
  /\ plot_species_distribution MoreSample.four_types
     = inl (KeyError "Estuary").
Proof.
  split.
  - apply (proj1 (species_distribution_needs_known_water_types
                    MoreSample.pond_rows)).
    unfold MoreSample.pond_rows, Generator.water_types.
    repeat (apply Forall_cons; [cbn; tauto|]). apply Forall_nil.
  - apply (proj2 (species_distribution_needs_known_water_types
                    MoreSample.four_types)
             ["Clear spring fed pond"; "vegetated pond"; "Oxbow analog"]
             "Estuary" []).
    + reflexivity.
    + unfold Generator.water_types.
      repeat (apply Forall_cons; [cbn; tauto|]). apply Forall_nil.
    + unfold Generator.water_types. cbn. intuition discriminate.
Defined.

Lemma species_distribution_counts_witness :
  exists panels bars,
    plot_species_distribution MoreSample.pond_rows = inr panels
    /\ In (RES, bars) panels
    /\ counts bars = [0; 0; 2]%Z.
Proof.
  destruct (plot_species_distribution_known MoreSample.pond_rows)
    as [panels [E Hs]].
  { unfold Generator.water_types.
    repeat (apply Forall_cons; [cbn; tauto|]). apply Forall_nil. }
  destruct panels as [|p1 [|[s2 b2] [|p3 [|]]]]; try discriminate Hs.
  assert (Es : s2 = RES).
  { unfold species in Hs. cbn in Hs. now injection Hs. }
  subst s2.
  exists [p1; (RES, b2); p3], b2. split; [exact E|].
  assert (Hin : In (RES, b2) [p1; (RES, b2); p3]) by (right; left; reflexivity).
  split; [exact Hin|].
  destruct (species_distribution_counts MoreSample.pond_rows _ RES b2 E Hin)
    as [_ [Hc _]].
  rewrite Hc. reflexivity.
Defined.

Lemma co_occurrence_loop_spec d :
  forall l k,
    ((k + List.length l <= n_axes)%nat ->
     co_occurrence_loop d (combine (seq k (List.length l)) l)
     = inr (map (fun wt => (wt, co_occur (habitat_subset d wt))) l))
    /\ ((n_axes < k + List.length l)%nat -> l <> [] ->
        co_occurrence_loop d (combine (seq k (List.length l)) l)
        = inl IndexError).
Proof.
  unfold n_axes.
  induction l as [|w l IH]; intro k; [split; [reflexivity|congruence]|].
  cbn [List.length seq combine co_occurrence_loop map]. unfold n_axes.
  destruct (IH (S k)) as [IHok IHerr]. split.
  - intro Hk. destruct (Nat.ltb_spec k 3) as [_|Hge]; [|lia].
    rewrite IHok by lia. reflexivity.
  - intros Hk _. destruct (Nat.ltb_spec k 3) as [Hlt|_]; [|reflexivity].
    rewrite IHerr; [reflexivity|lia|].
    destruct l; [cbn in Hk; lia|discriminate].
Qed.

Lemma plot_co_occurrence_cases d :
  ((List.length (water_types_of d) <= 3)%nat ->
   plot_co_occurrence d
   = inr (map (fun wt => (wt, co_occur (habitat_subset d wt)))
              (water_types_of d)))
  /\ ((3 < List.length (water_types_of d))%nat ->
      plot_co_occurrence d = inl IndexError).
Proof.
  unfold plot_co_occurrence, enumerate.
  destruct (co_occurrence_loop_spec d (water_types_of d) 0) as [Hok Herr].
  split.
  - intro H. apply Hok. exact H.
  - intro H. apply Herr; [exact H|].
    destruct (water_types_of d); [cbn in H; lia|discriminate].
Qed.

(** X15. [plot_co_occurrence] has three panels: on a Dataset with at most
    three water types it draws, for each of them in order of first
    appearance, the co-occurrence matrix of its observations; with four or
    more water types [axes[idx]] raises IndexError. *)
Theorem co_occurrence_at_most_three_water_types d :
  ((List.length (water_types_of d) <= 3)%nat ->
   plot_co_occurrence d
   = inr (map (fun wt => (wt, co_occur (habitat_subset d wt)))
              (water_types_of d)))
  /\ ((3 < List.length (water_types_of d))%nat ->
      plot_co_occurrence d = inl IndexError).
Proof.
  unfold plot_co_occurrence, enumerate.
  destruct (co_occurrence_loop_spec d (water_types_of d) 0) as [Hok Herr].
  split.
  - intro H. apply Hok. exact H.
  - intro H. apply Herr; [exact H|].
    destruct (water_types_of d); [cbn in H; lia|discriminate].
Qed.

Lemma co_occurrence_at_most_three_water_types_witness :
  plot_co_occurrence MoreSample.four_types = inl IndexError
  /\ exists panels,
       plot_co_occurrence MoreSample.pond_rows = inr panels
       /\ map fst panels
          = ["Clear spring fed pond"; "vegetated pond"; "Oxbow analog"].
Proof.
  split.
  - apply (proj2 (co_occurrence_at_most_three_water_types
                    MoreSample.four_types)). cbn. lia.
  - eexists. split.
    + apply (proj1 (co_occurrence_at_most_three_water_types
                      MoreSample.pond_rows)). cbn. lia.
    + reflexivity.
Defined.

Lemma joint_count_le {A : Type} (f g : A -> bool) l :
  (len (filter (fun x => f x && g x) l) <= len (filter f l))%Z
  /\ (len (filter (fun x => f x && g x) l) <= len (filter g l))%Z
  /\ (len (filter f l) + len (filter g l)
      <= len (filter (fun x => f x && g x) l) + len l)%Z.
Proof.
  unfold len. induction l as [|x l [IH1 [IH2 IH3]]]; [cbn; lia|].
  cbn [filter]. destruct (f x), (g x); cbn [andb List.length]; lia.
Qed.

(** X16. The co-occurrence matrix of a set of observations with 0/1
    presence indicators is symmetric, holds on its diagonal the number of
    observations with each species, and off the diagonal a joint count that
    is at most either of the two diagonal entries and at least their sum
    minus the number of observations. *)
Theorem co_occur_matrix rows :
  binary_presence rows ->
  exists rgs_res rgs_ph res_ph,
    co_occur rows
    = [[presence_count RGS rows; rgs_res; rgs_ph];
       [rgs_res; presence_count RES rows; res_ph];
       [rgs_ph; res_ph; presence_count PH rows]]
    /\ (presence_count RGS rows + presence_count RES rows - len rows
        <= rgs_res
        <= Z.min (presence_count RGS rows) (presence_count RES rows))%Z
    /\ (presence_count RGS rows + presence_count PH rows - len rows
        <= rgs_ph
        <= Z.min (presence_count RGS rows) (presence_count PH rows))%Z
    /\ (presence_count RES rows + presence_count PH rows - len rows
        <= res_ph
        <= Z.min (presence_count RES rows) (presence_count PH rows))%Z.
Proof.
  intro Hbin.
  assert (Hsum : forall s, Zsum (map (present s) rows)
                           = presence_count s rows).
  { intro s. apply Zsum_binary_count. unfold binary_presence in Hbin.
    rewrite Forall_forall in *. intros o Ho. now apply Hbin. }
  set (joint := fun a b =>
         len (filter (fun o => Z.eqb (present a o) 1
                               && Z.eqb (present b o) 1) rows)).
  assert (Hsym : forall a b, joint a b = joint b a).
  { intros a b. unfold joint. apply f_equal, filter_ext. intro o.
    apply andb_comm. }
  assert (Hb : forall a b,
            (presence_count a rows + presence_count b rows - len rows
             <= joint a b
             <= Z.min (presence_count a rows) (presence_count b rows))%Z).
  { intros a b. unfold joint, presence_count.
    pose proof (joint_count_le (fun o => Z.eqb (present a o) 1)
                  (fun o => Z.eqb (present b o) 1) rows) as Hj.
    cbv beta in Hj. lia. }
  exists (joint RGS RES), (joint RGS PH), (joint RES PH).
  split; [|auto].
  unfold co_occur, enumerate, species. cbn [List.length seq combine map].
  cbn [Nat.eqb]. rewrite (Hsum RGS), (Hsum RES), (Hsum PH).
  fold (joint RGS RES) (joint RGS PH) (joint RES PH)
       (joint RES RGS) (joint PH RGS) (joint PH RES).
  now rewrite (Hsym RES RGS), (Hsym PH RGS), (Hsym PH RES).
Qed.

Lemma co_occur_matrix_witness :
  binary_presence Sample.nine_rows
  /\ exists rgs_res rgs_ph res_ph,
       co_occur Sample.nine_rows
       = [[presence_count RGS Sample.nine_rows; rgs_res; rgs_ph];
          [rgs_res; presence_count RES Sample.nine_rows; res_ph];
          [rgs_ph; res_ph; presence_count PH Sample.nine_rows]].
Proof.
  split; [exact AnalyzerFacts.nine_rows_binary|].
  destruct (co_occur_matrix Sample.nine_rows AnalyzerFacts.nine_rows_binary)
    as [a [b [c [E _]]]].
  exists a, b, c. exact E.
Defined.

Lemma habitat_subset_cons o d w :
  habitat_subset (o :: d) w
  = if String.eqb (water_body_type o) w then o :: habitat_subset d w
    else habitat_subset d w.
Proof. reflexivity. Qed.

Lemma groups_cons (f : Observation -> Q) o d ws :
  NoDup ws ->
  (In (water_body_type o) ws ->
   Permutation
     (List.concat (map (fun wt => map f (habitat_subset (o :: d) wt)) ws))
     (f o :: List.concat (map (fun wt => map f (habitat_subset d wt)) ws)))
  /\ (~ In (water_body_type o) ws ->
      List.concat (map (fun wt => map f (habitat_subset (o :: d) wt)) ws)
      = List.concat (map (fun wt => map f (habitat_subset d wt)) ws)).
Proof.
  induction 1 as [|w ws Hw Hnd [IHin IHout]]; [split; [contradiction|reflexivity]|].
  cbn [map List.concat]. rewrite (habitat_subset_cons o d w).
  destruct (String.eqb_spec (water_body_type o) w) as [E|Hne].
  - split; [|intro Hn; exfalso; apply Hn; now left].
    intros _. rewrite IHout by (rewrite E; exact Hw). reflexivity.
  - split.
    + intros [E|Hin]; [congruence|].
      apply Permutation_trans
        with (map f (habitat_subset d w)
              ++ f o :: List.concat
                          (map (fun wt => map f (habitat_subset d wt)) ws)).
      * apply Permutation_app_head. now apply IHin.
      * apply Permutation_sym, Permutation_middle.
    + intro Hn. rewrite IHout; [reflexivity|].
      intro Hin. apply Hn. now right.
Qed.

Lemma groups_permutation (f : Observation -> Q) ws :
  NoDup ws ->
  forall d,
    (forall o, In o d -> In (water_body_type o) ws) ->
    Permutation
      (List.concat (map (fun wt => map f (habitat_subset d wt)) ws))
      (map f d).
Proof.
  intros Hnd. induction d as [|o d IH]; intro Hin.
  - replace (List.concat (map (fun wt => map f (habitat_subset [] wt)) ws))
      with (@nil Q); [constructor|].
    clear. induction ws as [|w ws IHw]; [reflexivity|]. exact IHw.
  - apply Permutation_trans
      with (f o :: List.concat
                     (map (fun wt => map f (habitat_subset d wt)) ws)).
    + apply (groups_cons f o d ws Hnd). apply Hin. now left.
    + cbn [map]. apply perm_skip, IH. intros o' Ho'. apply Hin. now right.
Qed.

(** X17. For each covariate, the groups that
    [plot_environmental_conditions] hands to the box plot are one non-empty
    group per water type of the Dataset, and together they hold the values
    of the whole column, each observation exactly once. *)
Theorem boxplot_groups d feature :
  List.length (data_by_type d feature) = List.length (water_types_of d)
  /\ Forall (fun group => group <> []) (data_by_type d feature)
  /\ Permutation (List.concat (data_by_type d feature)) (map feature d).
Proof.
  unfold data_by_type. split; [apply length_map|]. split.
  - apply Forall_forall. intros group Hg. apply in_map_iff in Hg.
    destruct Hg as [wt [<- Hwt]].
    pose proof (habitat_subset_nonempty d wt Hwt) as Hpos.
    intro H0. apply map_eq_nil in H0. rewrite H0 in Hpos. discriminate.
  - apply groups_permutation; [apply NoDup_water_types_of|].
    intros o Ho. apply In_water_types_of. now apply in_map.
Qed.

End RendererExtras.

(** ** The stages together *)

(** The generated Dataset reaches the later stages through the CSV file
    written by [save_data].  The properties of this section are about the
    water-type labels and the number of rows of a Dataset with at least
    one row, which the file keeps. *)

Module PipelineExtras.

Import Frame Vocabulary Analyzer Renderer Generator.
Import FrameFacts GeneratorFacts AnalyzerFacts ContingencyFacts.
Import RendererExtras ClassExtras.

Section UniqueRepeat.

Context {A : Type} (eqb : A -> A -> bool).
Hypothesis eqb_eq : forall a b, eqb a b = true <-> a = b.

Lemma unique_from_repeat_seen x seen m l :
  In x seen ->
  unique_from eqb seen (repeat x m ++ l) = unique_from eqb seen l.
Proof.
  intro Hin. induction m as [|m IH]; [reflexivity|].
  cbn [repeat app unique_from].
  now rewrite (proj2 (existsb_eqb_In eqb eqb_eq x seen) Hin).
Qed.

Lemma unique_from_repeat_new x seen m l :
  ~ In x seen ->
  unique_from eqb seen (repeat x (S m) ++ l)
  = x :: unique_from eqb (x :: seen) l.
Proof.
  intro Hn. cbn [repeat app unique_from].
  destruct (existsb (eqb x) seen) eqn:E.
  - apply (existsb_eqb_In eqb eqb_eq) in E. contradiction.
  - rewrite unique_from_repeat_seen; [reflexivity|now left].
Qed.

End UniqueRepeat.

(** The water types of three blocks of [S m] rows each. *)
Lemma water_types_of_blocks (d : Dataset) m :
  map water_body_type d
  = flat_map (fun wt => repeat wt (S m)) Generator.water_types ->
  water_types_of d = Generator.water_types.
Proof.
  intro W. unfold water_types_of, unique. rewrite W.
  cbn [flat_map Generator.water_types].
  rewrite (unique_from_repeat_new String.eqb String.eqb_eq) by (cbn; tauto).
  rewrite (unique_from_repeat_new String.eqb String.eqb_eq)
    by (cbn; intuition discriminate).
  rewrite (unique_from_repeat_new String.eqb String.eqb_eq)
    by (cbn; intuition discriminate).
  reflexivity.
Qed.

Lemma known_labels (d : Dataset) m :
  map water_body_type d
  = flat_map (fun wt => repeat wt m) Generator.water_types ->
  Forall (fun o => In (water_body_type o) Generator.water_types) d.
Proof.
  intro W. apply Forall_forall. intros o Ho.
  apply (in_map water_body_type) in Ho. rewrite W in Ho.
  apply in_flat_map in Ho. destruct Ho as [wt [Hwt Hr]].
  apply repeat_spec in Hr. now subst.
Qed.

Section WithSource.

Variable R : RandomSource.
Variable np_sqrt : Q -> Q.
Variable chi2_sf : Q -> Z -> Q.

(** X18. The analyzer on a generated Dataset, for a request of at least 3
    observations: it meets the three water types in the order of the
    generator's list, every record of [calculate_occurrence_rates] has
    [n_observations = n_samples // 3], and [run_full_analysis] returns its
    results.  (A request of 0, 1 or 2 gives a frame without rows and
    without columns, which is not a Dataset of the later stages.) *)
Theorem analysis_of_generated_data n_samples g d :
  (3 <= n_samples)%Z ->
  fst (generate_habitat_data R n_samples g) = Some d ->
  water_types_of d = Generator.water_types
  /\ (forall r, In r (calculate_occurrence_rates d) ->
                n_observations r = (n_samples / 3)%Z)
  /\ exists res self',
       AnalysisClass.run_full_analysis np_sqrt chi2_sf
         (AnalysisClass.init d) = (inr res, self').
Proof.
  intros H3 E.
  destruct (generate_habitat_data_inv R n_samples g d E) as [Hn [W _]].
  assert (Hq : (1 <= n_samples / 3)%Z)
    by (apply Z.div_le_lower_bound; lia).
  destruct (Z.to_nat (n_samples / 3)) as [|m] eqn:Em; [lia|].
  assert (Hwt : water_types_of d = Generator.water_types)
    by (apply (water_types_of_blocks d m W)).
  split; [exact Hwt|]. split.
  - intros r Hr. apply In_calculate_occurrence_rates in Hr.
    destruct Hr as [wt [s [Hin ->]]]. cbn.
    rewrite Hwt in Hin. unfold habitat_subset, len.
    rewrite <- (length_map water_body_type),
      <- (filter_map_swap (fun w => String.eqb w wt) water_body_type d), W.
    cbn [flat_map Generator.water_types].
    rewrite !filter_app, !GeneratorExtras.filter_repeat.
    destruct Hin as [<-|[<-|[<-|[]]]]; cbn;
      rewrite ?app_nil_r, repeat_length; lia.
  - assert (Hd : d <> []).
    { intros ->. discriminate W. }
    destruct (run_full_analysis_nonempty np_sqrt chi2_sf d
                (AnalysisClass.mkResults None None None None) Hd)
      as [c [sm [_ [_ Hrun]]]].
    eexists. eexists. exact Hrun.
Qed.

(** X19. The renderer on a generated Dataset, for a request of at least 3
    observations: the frame of the bar chart has rows, and the water types
    are the three names of the colour dict, so none of
    [plot_occurrence_by_habitat], [plot_species_distribution] and
    [plot_co_occurrence] raises. *)
Theorem charts_of_generated_data n_samples g d :
  (3 <= n_samples)%Z ->
  fst (generate_habitat_data R n_samples g) = Some d ->
  (exists bars, plot_occurrence_by_habitat d = inr bars)
  /\ (exists panels, plot_species_distribution d = inr panels)
  /\ (exists panels, plot_co_occurrence d = inr panels).
Proof.
  intros H3 E.
  destruct (generate_habitat_data_inv R n_samples g d E) as [Hn [W _]].
  pose proof (known_labels d _ W) as Hknown.
  assert (Hq : (1 <= n_samples / 3)%Z)
    by (apply Z.div_le_lower_bound; lia).
  destruct (Z.to_nat (n_samples / 3)) as [|m] eqn:Em; [lia|].
  assert (Hd : d <> []).
  { intros ->. discriminate W. }
  split; [|split].
  - eexists.
    exact (proj2 (RendererFacts.plot_occurrence_by_habitat_spec d) Hd).
  - destruct (bar_colors_of_known _ (known_water_types d Hknown))
      as [cs [Ec _]].
    unfold plot_species_distribution, species. cbn [species_panels].
    unfold species_panel. rewrite Ec. eexists. reflexivity.
  - assert (Hlen : (List.length (water_types_of d) <= 3)%nat).
    { rewrite (water_types_of_blocks d m W). cbn. lia. }
    destruct (co_occurrence_loop_spec d (water_types_of d) 0) as [Hok _].
    eexists. unfold plot_co_occurrence, enumerate. apply Hok. exact Hlen.
Qed.

End WithSource.

Lemma analysis_of_generated_data_witness :
  exists d,
    fst (generate_habitat_data LCG.source 10 42%Z) = Some d
    /\ water_types_of d = Generator.water_types
    /\ forall r, In r (calculate_occurrence_rates d) ->
                 n_observations r = 3%Z.
Proof.
  destruct (generate_habitat_data_spec LCG.source 10 42%Z) as [d [E _]];
    [lia|].
  exists d. split; [exact E|].
  assert (H3 : (3 <= 10)%Z) by lia.
  destruct (analysis_of_generated_data LCG.source Sample.sqrt_down
              Sample.sf_stand_in 10 42%Z d H3 E)
    as [Hw [Hn _]].
  split; [exact Hw | exact Hn].
Defined.

Lemma charts_of_generated_data_witness :
  exists d,
    fst (generate_habitat_data LCG.source 10 42%Z) = Some d
    /\ (exists bars, plot_occurrence_by_habitat d = inr bars)
    /\ (exists panels, plot_species_distribution d = inr panels)
    /\ (exists panels, plot_co_occurrence d = inr panels).
Proof.
  destruct (generate_habitat_data_spec LCG.source 10 42%Z) as [d [E _]];
    [lia|].
  exists d. split; [exact E|].
  assert (H3 : (3 <= 10)%Z) by lia.
  exact (charts_of_generated_data LCG.source 10 42%Z d H3 E).
Defined.

End PipelineExtras.

(** ** The fixed scales of the rate charts *)

Module ScaleExtras.

Import Frame Vocabulary Analyzer Renderer FrameFacts RendererFacts.

Lemma subset_rate_within d wt s :
  binary_presence d -> In wt (water_types_of d) ->
  within 0 100 (subset_rate (habitat_subset d wt) s).
Proof.
  intros Hbin Hwt. unfold subset_rate, within.
  pose proof (habitat_subset_nonempty d wt Hwt) as Hpos.
  rewrite Zsum_binary_count.
  - apply rate_percent_range; [apply presence_count_bounds | exact Hpos].
  - pose proof (binary_presence_subset d wt Hbin) as Hs.
    unfold binary_presence in Hs. rewrite Forall_forall in *.
    intros o Ho. now apply Hs.
Qed.

(** X20. On a Dataset with 0/1 presence indicators every rate drawn by the
    two rate charts lies inside their fixed scales: the heatmap has one row
    per water type with three cells in [0, 100] (its colour scale); and
    whenever the bar chart gets as far as drawing, which it does on every
    Dataset with at least one row, it has one list of bars per species,
    one bar per water type, with heights in [0, 100] (its y-limits). *)
Theorem rates_within_chart_scales d :
  binary_presence d ->
  (List.length (plot_heatmap d) = List.length (water_types_of d)
   /\ Forall (fun cells => List.length cells = 3%nat
                           /\ Forall (within 0 100) cells)
             (plot_heatmap d))
  /\ (forall bars,
        plot_occurrence_by_habitat d = inr bars ->
        List.length bars = 3%nat
        /\ Forall (fun rates =>
                     List.length rates = List.length (water_types_of d)
                     /\ Forall (within 0 100) rates)
                  bars)
  /\ (d <> [] -> exists bars, plot_occurrence_by_habitat d = inr bars).
Proof.
  intro Hbin. split; [|split].
  - unfold plot_heatmap. split; [apply length_map|].
    apply Forall_forall. intros cells Hc. apply in_map_iff in Hc.
    destruct Hc as [wt [<- Hwt]]. split; [reflexivity|].
    apply Forall_forall. intros x Hx. apply in_map_iff in Hx.
    destruct Hx as [s [<- _]]. now apply subset_rate_within.
  - intros bars E.
    assert (Hd : d <> []).
    { intros ->. discriminate E. }
    rewrite (proj2 (plot_occurrence_by_habitat_spec d) Hd) in E.
    injection E as <-. split; [reflexivity|].
    apply Forall_forall. intros rates Hr.
    destruct Hr as [<-|[<-|[<-|[]]]];
      (split; [apply length_map|]);
      apply Forall_forall; intros x Hx; apply in_map_iff in Hx;
      destruct Hx as [wt [<- Hwt]]; now apply subset_rate_within.
  - intro Hd. eexists.
    exact (proj2 (plot_occurrence_by_habitat_spec d) Hd).
Qed.

Lemma rates_within_chart_scales_witness :
  binary_presence Sample.nine_rows
  /\ Forall (fun cells => List.length cells = 3%nat
                          /\ Forall (within 0 100) cells)
            (plot_heatmap Sample.nine_rows)
  /\ exists bars, plot_occurrence_by_habitat Sample.nine_rows = inr bars.
Proof.
  split; [exact AnalyzerFacts.nine_rows_binary|].
  destruct (rates_within_chart_scales Sample.nine_rows
              AnalyzerFacts.nine_rows_binary) as [[_ Hheat] [_ Hbars]].
  split; [exact Hheat|]. apply Hbars. discriminate.
Defined.

End ScaleExtras.

(** ** The order of the failures of the plots *)

Module PlotOrderExtras.

Import Frame Vocabulary Renderer FrameFacts RendererExtras.

(** A list with an element outside the generator's water types splits at
    the first such element. *)
Lemma first_unknown (l : list string) :
  ~ Forall (fun h => In h Generator.water_types) l ->
  exists pre h post,
    l = pre ++ h :: post
    /\ Forall (fun h => In h Generator.water_types) pre
    /\ ~ In h Generator.water_types.
Proof.
  induction l as [|x l IH]; intro H.
  - exfalso. apply H. constructor.
  - destruct (in_dec string_dec x Generator.water_types) as [Hx|Hx].
    + destruct IH as [pre [h [post [E [Hpre Hh]]]]].
      { intro Hl. apply H. now constructor. }
      exists (x :: pre), h, post. rewrite E.
      split; [reflexivity|]. split; [now constructor | exact Hh].
    + exists [], x, l. split; [reflexivity|]. split; [constructor|exact Hx].
Qed.

(** X21. Of the two plots that can raise on their input
    ([generate_all_plots] calls [plot_species_distribution] before
    [plot_co_occurrence]), the first decides: whenever
    [plot_co_occurrence] would raise IndexError, because the Dataset has
    more than three water types, [plot_species_distribution] raises
    KeyError on a water type outside the colour dict; and whenever
    [plot_species_distribution] draws its panels, [plot_co_occurrence]
    draws too. *)
Theorem key_error_precedes_index_error d :
  (plot_co_occurrence d = inl IndexError ->
   exists h, plot_species_distribution d = inl (KeyError h)
             /\ ~ In h Generator.water_types
             /\ In h (map water_body_type d))
  /\ (forall panels,
        plot_species_distribution d = inr panels ->
        exists matrices, plot_co_occurrence d = inr matrices).
Proof.
  assert (Hcases :
    Forall (fun h => In h Generator.water_types) (water_types_of d)
    \/ exists h, plot_species_distribution d = inl (KeyError h)
                 /\ ~ In h Generator.water_types
                 /\ In h (map water_body_type d)).
  { destruct (Forall_dec (fun h => In h Generator.water_types)
                (fun h => in_dec string_dec h Generator.water_types)
                (water_types_of d)) as [Hall|Hnot]; [now left|right].
    destruct (first_unknown _ Hnot) as [pre [h [post [E [Hpre Hh]]]]].
    exists h. split; [|split; [exact Hh|]].
    - apply (plot_species_distribution_unknown d pre h post E Hpre Hh).
    - apply In_water_types_of. rewrite E. apply in_elt. }
  assert (Hshort :
    Forall (fun h => In h Generator.water_types) (water_types_of d) ->
    (List.length (water_types_of d) <= 3)%nat).
  { intro Hall.
    apply (NoDup_incl_length (NoDup_water_types_of d)
             (l' := Generator.water_types)).
    intros h Hh. rewrite Forall_forall in Hall. now apply Hall. }
  split.
  - intro Herr. destruct Hcases as [Hall|Hkey]; [|exact Hkey].
    rewrite (proj1 (plot_co_occurrence_cases d) (Hshort Hall)) in Herr.
    discriminate.
  - intros panels Hp. destruct Hcases as [Hall|[h [Hkey _]]].
    + eexists. apply (proj1 (plot_co_occurrence_cases d) (Hshort Hall)).
    + rewrite Hkey in Hp. discriminate.
Qed.

Lemma key_error_precedes_index_error_witness :
  plot_co_occurrence MoreSample.four_types = inl IndexError
  /\ exists h,
       plot_species_distribution MoreSample.four_types = inl (KeyError h)
       /\ ~ In h Generator.water_types.
Proof.
  assert (Herr : plot_co_occurrence MoreSample.four_types = inl IndexError)
    by reflexivity.
  split; [exact Herr|].
  destruct (proj1 (key_error_precedes_index_error MoreSample.four_types)
              Herr) as [h [Hk [Hn _]]].
  exists h. split; [exact Hk | exact Hn].
Defined.

End PlotOrderExtras.

(** ** The reported test statistic *)

Module TestStatisticExtras.

Import Frame Vocabulary Analyzer FrameFacts ContingencyFacts.

Section Test.

Variable chi2_sf : Q -> Z -> Q.

(** X22. When [contingency_analysis] succeeds, every entry reports a
    chi-square statistic that is a non-negative number and degrees of
    freedom equal to (rows - 1) x (columns - 1) of its contingency table,
    which has one row of counts per water type.  With 0 degrees of freedom
    the statistic is 0 and the p-value is exactly 1; otherwise the p-value
    is the chi-square survival function at the reported statistic and
    degrees of freedom, whatever that library function returns. *)
Theorem statistic_and_degrees_of_freedom d rows s row :
  contingency_analysis chi2_sf d = inr rows ->
  In (s, row) rows ->
  exists chi2,
    chi2_statistic row = Val chi2 /\ 0 <= chi2
    /\ degrees_of_freedom row
       = ((len (ct_index (contingency_table row)) - 1)
          * (len (ct_columns (contingency_table row)) - 1))%Z
    /\ len (ct_values (contingency_table row))
       = len (ct_index (contingency_table row))
    /\ (degrees_of_freedom row = 0%Z ->
        chi2 = 0 /\ p_value row = Val 1 /\ significant row = false)
    /\ (degrees_of_freedom row <> 0%Z ->
        p_value row = Val (chi2_sf chi2 (degrees_of_freedom row))).
Proof.
  intros E Hin.
  destruct (In_contingency_analysis chi2_sf d rows s row E Hin) as [Hd Es].
  destruct (contingency_species_spec chi2_sf d s Hd)
    as [row' [Es' [Ht [Hdof Hres]]]].
  rewrite Es in Es'. injection Es' as <-. rewrite Ht.
  destruct Hres as [[H0 [Hs [Hp Hsig]]]|[Hn [chi2 [Hpos [Hs Hp]]]]].
  - exists 0. rewrite Hs.
    repeat split; try reflexivity; try discriminate; try assumption.
    + apply len_values.
    + congruence.
  - exists chi2.
    repeat split; try assumption; try contradiction.
    + apply len_values.
    + intros _. exact Hp.
Qed.

End Test.

Lemma statistic_and_degrees_of_freedom_witness :
  exists rows row,
    contingency_analysis Sample.sf_stand_in Sample.nine_rows = inr rows
    /\ In (RGS, row) rows
    /\ exists chi2,
         chi2_statistic row = Val chi2 /\ 0 <= chi2
         /\ degrees_of_freedom row
            = ((len (ct_index (contingency_table row)) - 1)
               * (len (ct_columns (contingency_table row)) - 1))%Z.
Proof.
  destruct (contingency_analysis_rows Sample.sf_stand_in Sample.nine_rows
              nine_rows_nonempty) as [r1 [r2 [r3 [E _]]]].
  exists [(RGS, r1); (RES, r2); (PH, r3)], r1.
  split; [exact E|].
  assert (Hin : In (RGS, r1) [(RGS, r1); (RES, r2); (PH, r3)])
    by (left; reflexivity).
  split; [exact Hin|].
  destruct (statistic_and_degrees_of_freedom Sample.sf_stand_in
              Sample.nine_rows _ RGS r1 E Hin)
    as [chi2 [Hs [Hpos [Hdof _]]]].
  exists chi2. auto.
Defined.

End TestStatisticExtras.
